(** * dashboard.py: the invoice dashboard's loading, filtering and aggregation

    A shallow embedding of [src/dashboard.py].  The pandas frame the script
    builds is modelled column by column, as the script manipulates it: a
    column access [df[col]] is fallible (KeyError), a vectorised operation
    is a map over a series, and a boolean-mask selection is a [filter] over
    the rows.  Python floats are IEEE binary64 numbers, modelled by Rocq's
    primitive floats; timestamps are nanoseconds since the epoch in [Z]. *)

From Stdlib Require Import ZArith List Ascii String Bool Lia Permutation Sorted.
From Stdlib Require OrderedTypeEx.
From Stdlib Require Import Floats.PrimFloat Floats.SpecFloat Floats.FloatOps Floats.FloatAxioms.
Import ListNotations.

Local Open Scope string_scope.
Local Open Scope list_scope.

(** ** Exceptions and results *)

(** The Python exceptions the modelled code can meet. *)
Inductive exn : Type :=
| KeyError (key : string)
| ValueError (msg : string)
| TypeError (msg : string)
| StreamlitAPIException (msg : string)
| FileNotFoundError.

Inductive result (A : Type) : Type :=
| Ok (a : A)
| Raise (e : exn).

Arguments Ok {A} a.
Arguments Raise {A} e.

Definition bind {A B} (m : result A) (k : A -> result B) : result B :=
  match m with
  | Ok a => k a
  | Raise e => Raise e
  end.

Definition fmap {A B} (f : A -> B) (m : result A) : result B :=
  bind m (fun a => Ok (f a)).

Notation "x <- m ;; k" := (bind m (fun x => k))
  (at level 61, m at next level, right associativity).

(** ** Cells and raw frames *)

(** A cell as [pd.read_excel] hands it over: missing (NaN), a number, a
    text, or a date-time (nanoseconds since the epoch). *)
Inductive cell : Type :=
| Empty
| Number (f : float)
| Text (s : string)
| DateTime (t : Z).

(** The frame [pd.read_excel] returns: column labels and positional rows. *)
Record RawFrame : Type := mkRaw {
  columns : list string;
  rows : list (list cell)
}.

(** What the libraries under the script compute, taken as given: pandas'
    coercions on cells whose parsing is the library's business
    ([pd.to_numeric(errors='coerce')] on a text and on a date-time, [None]
    for not a number; [pd.to_datetime(errors='coerce', dayfirst=True)] on a
    text and on a number, [None] for NaT; [astype(str)]), the reduction
    [sum] of a float vector (NaN skipped), and Python's [f"{v:,.2f}"],
    [str.isdigit], [int] and [str] on an integer. *)
Record Library : Type := mkLibrary {
  numeric_of_text : string -> option float;
  numeric_of_datetime : Z -> option float;
  datetime_of_text : string -> option Z;
  datetime_of_number : float -> option Z;
  astype_str : cell -> string;
  series_sum : list float -> float;
  format_2f : float -> string;
  str_isdigit : string -> bool;
  int_of_str : string -> option Z;
  str_of_int : Z -> string
}.

Definition isna (f : float) : bool := negb (PrimFloat.eqb f f).

(** [pd.to_numeric(x, errors='coerce')], element by element. *)
Definition to_numeric (L : Library) (c : cell) : float :=
  match c with
  | Empty => nan
  | Number f => f
  | Text s => match numeric_of_text L s with Some f => f | None => nan end
  | DateTime t => match numeric_of_datetime L t with Some f => f | None => nan end
  end.

(** [Series.fillna(0)] on a float series, element by element. *)
Definition fillna0 (f : float) : float := if isna f then 0%float else f.

(** [Series.fillna(v)] on an object series, element by element. *)
Definition fillna (v : cell) (c : cell) : cell :=
  match c with
  | Empty => v
  | Number f => if isna f then v else c
  | _ => c
  end.

(** [pd.to_datetime(x, errors='coerce', dayfirst=True)]; [None] is NaT. *)
Definition to_datetime (L : Library) (c : cell) : option Z :=
  match c with
  | Empty => None
  | Number f => datetime_of_number L f
  | Text s => datetime_of_text L s
  | DateTime t => Some t
  end.

Definition notna (d : option Z) : bool :=
  match d with Some _ => true | None => false end.

(** ** Column access *)

Fixpoint index_of (col : string) (cols : list string) : option nat :=
  match cols with
  | [] => None
  | c :: cs => if String.eqb col c then Some 0
               else option_map S (index_of col cs)
  end.

Definition isin_columns (col : string) (cols : list string) : bool :=
  existsb (String.eqb col) cols.

(** The positions of the columns that carry a label, from position [i]
    on.  [read_excel] gives distinct labels, but line 49 can rename two of
    them to one. *)
Fixpoint positions_from (i : nat) (col : string) (cols : list string)
  : list nat :=
  match cols with
  | [] => []
  | c :: cs => if String.eqb col c then i :: positions_from (S i) col cs
               else positions_from (S i) col cs
  end.

Definition positions (col : string) (cols : list string) : list nat :=
  positions_from 0 col cols.

(** The column at a position. *)
Definition column (df : RawFrame) (i : nat) : list cell :=
  map (fun r => nth i r Empty) (rows df).

(** What [df[col]] is: a series when one column carries the label, a frame
    of the columns that carry it when several do. *)
Inductive item : Type :=
| Series (values : list cell)
| SubFrame (first : list cell) (others : list (list cell)).

(** [df[col]]: KeyError when no column carries the label. *)
Definition getitem (df : RawFrame) (col : string) : result item :=
  match positions col (columns df) with
  | [] => Raise (KeyError col)
  | [i] => Ok (Series (column df i))
  | i :: js => Ok (SubFrame (column df i) (map (column df) js))
  end.

(** Line 49: the fixed rename map. *)
Definition rename_map : list (string * string) :=
  [ ("Data de Pagamento", "data_pagamento");
    ("Valor em R$", "valor_principal_rs");
    ("Número do RM", "numero_rm");
    ("Correspondente", "correspondente");
    ("ND recebida", "nd_recebida");
    ("IOF", "iof");
    ("TX CONTRATO", "tx_contrato");
    ("IRRF", "irrf");
    ("CIDE", "cide");
    ("Moeda", "moeda");
    ("Valor", "valor_moeda_origem") ].

Fixpoint lookup (k : string) (m : list (string * string)) : option string :=
  match m with
  | [] => None
  | (a, b) :: m' => if String.eqb k a then Some b else lookup k m'
  end.

Definition rename_label (c : string) : string :=
  match lookup c rename_map with Some c' => c' | None => c end.

(** [df.rename(columns=rename_map, inplace=True)]. *)
Definition rename (df : RawFrame) : RawFrame :=
  mkRaw (map rename_label (columns df)) (rows df).

(** Line 50. *)
Definition cols_to_keep : list string :=
  [ "data_pagamento"; "valor_principal_rs"; "numero_rm"; "correspondente";
    "nd_recebida"; "iof"; "tx_contrato"; "irrf"; "cide"; "moeda";
    "valor_moeda_origem" ].

(** [df[labels]] for labels all present in [df]: label after label, in
    the order of the list, every column of [df] that carries it. *)
Definition select (labels : list string) (df : RawFrame) : RawFrame :=
  mkRaw
    (flat_map (fun l => map (fun _ => l) (positions l (columns df))) labels)
    (map (fun r =>
            flat_map (fun l => map (fun i => nth i r Empty)
                                   (positions l (columns df))) labels)
         (rows df)).

(** Line 51: [df[[col for col in cols_to_keep if col in df.columns]]]. *)
Definition keep_known (df : RawFrame) : RawFrame :=
  select (filter (fun col => isin_columns col (columns df)) cols_to_keep) df.

(** ** The normalised frame *)

(** A row of the frame [load_data] returns, one field per column. *)
Record Invoice : Type := mkInvoice {
  data_pagamento : option Z;
  valor_principal_rs : float;
  numero_rm : string;
  correspondente : cell;
  nd_recebida : string;
  iof : float;
  tx_contrato : float;
  irrf : float;
  cide : float;
  moeda : cell;
  valor_moeda_origem : float;
  status : string;
  valor_total_pago : float
}.

Definition DataFrame : Type := list Invoice.

(** Series addition [a + b] (both series carry the frame's index). *)
Definition add_series (a b : list float) : list float :=
  map (fun xy => PrimFloat.add (fst xy) (snd xy)) (combine a b).

(** Line 53, one turn of the loop:
    [pd.to_numeric(df[col], errors='coerce').fillna(0)].  [pd.to_numeric]
    takes a series and refuses a frame. *)
Definition numeric_column (L : Library) (df : RawFrame) (col : string)
  : result (list float) :=
  x <- getitem df col ;;
  match x with
  | Series s => Ok (map (fun c => fillna0 (to_numeric L c)) s)
  | SubFrame _ _ =>
      Raise (TypeError "arg must be a list, tuple, 1-d array, or Series")
  end.

(** Lines 54 to 57: [df[col] = df[col].fillna(v)], with [astype(str)] or
    without.  [fillna] and [astype] work on a series and, column by column,
    on a frame, and the assignment puts back what it is given; a record
    has one field for the label and holds the first of its columns. *)
Definition object_column {A : Type} (f : cell -> A) (df : RawFrame)
    (col : string) : result (list A) :=
  x <- getitem df col ;;
  Ok (map f (match x with Series s => s | SubFrame s _ => s end)).

(** Line 58: [pd.to_datetime(df[col], errors='coerce', dayfirst=True)].
    Given a frame, [pd.to_datetime] assembles dates from columns named
    year, month and day, and refuses columns of one name. *)
Definition datetime_column (L : Library) (df : RawFrame) (col : string)
  : result (list (option Z)) :=
  x <- getitem df col ;;
  match x with
  | Series s => Ok (map (to_datetime L) s)
  | SubFrame _ _ => Raise (ValueError "cannot assemble with duplicate keys")
  end.

(** The rows of a frame given by its thirteen columns, over [n] rows. *)
Definition frame_of_columns (n : nat)
    (c_data : list (option Z)) (c_principal : list float)
    (c_rm : list string) (c_corr : list cell) (c_nd : list string)
    (c_iof c_tx c_irrf c_cide : list float) (c_moeda : list cell)
    (c_origem : list float) (c_status : list string) (c_total : list float)
  : DataFrame :=
  map (fun i =>
         mkInvoice (nth i c_data None) (nth i c_principal nan)
                   (nth i c_rm "") (nth i c_corr Empty) (nth i c_nd "")
                   (nth i c_iof nan) (nth i c_tx nan) (nth i c_irrf nan)
                   (nth i c_cide nan) (nth i c_moeda Empty)
                   (nth i c_origem nan) (nth i c_status "")
                   (nth i c_total nan))
      (seq 0 n).

Definition is_pago (r : Invoice) : bool := String.eqb (status r) "Pago".
Definition is_pendente (r : Invoice) : bool := String.eqb (status r) "Pendente".

(** Lines 49 to 61: renaming, typing, deriving and splitting. *)
Definition normalize (L : Library) (df : RawFrame)
  : result (DataFrame * DataFrame) :=
  let df := rename df in
  let df := keep_known df in
  (* line 53, in the order of numeric_cols *)
  c_principal <- numeric_column L df "valor_principal_rs" ;;
  c_iof <- numeric_column L df "iof" ;;
  c_tx <- numeric_column L df "tx_contrato" ;;
  c_irrf <- numeric_column L df "irrf" ;;
  c_cide <- numeric_column L df "cide" ;;
  c_origem <- numeric_column L df "valor_moeda_origem" ;;
  (* lines 54 to 57 *)
  c_rm <- object_column
            (fun c => astype_str L (fillna (Text "Não informado") c))
            df "numero_rm" ;;
  c_nd <- object_column
            (fun c => astype_str L (fillna (Text "Não informada") c))
            df "nd_recebida" ;;
  c_corr <- object_column (fillna (Text "Não informado")) df "correspondente" ;;
  c_moeda <- object_column (fillna (Text "N/A")) df "moeda" ;;
  (* line 58 *)
  c_data <- datetime_column L df "data_pagamento" ;;
  (* line 59 *)
  let c_status :=
    map (fun d => if notna d then "Pago" else "Pendente") c_data in
  (* line 60 *)
  let c_total :=
    add_series (add_series (add_series (add_series c_principal c_iof) c_tx)
                           c_irrf) c_cide in
  let df := frame_of_columns (List.length (rows df)) c_data c_principal c_rm
              c_corr c_nd c_iof c_tx c_irrf c_cide c_moeda c_origem
              c_status c_total in
  (* line 61 *)
  Ok (filter is_pago df, filter is_pendente df).

(** A workbook that [openpyxl] loads and saves and [pd.read_excel] reads:
    its sheets by name, each as [pd.read_excel] with [skiprows=1] reads
    it. *)
Definition Workbook : Type := list (string * RawFrame).

Fixpoint sheet (name : string) (wb : Workbook) : option RawFrame :=
  match wb with
  | [] => None
  | (n, df) :: wb' => if String.eqb name n then Some df else sheet name wb'
  end.

(** Why [load_data] returned [(None, None)], as its [st.error] says. *)
Inductive load_error : Type :=
| SheetNotFound (sheet_name : string) (sheetnames : list string)
| FileNotFound
| LoadFailure (e : exn).

(** [load_data]'s return value: the two frames, or [(None, None)]. *)
Inductive loaded : Type :=
| Frames (df_pago df_pendente : DataFrame)
| NoFrames (why : load_error).

(** [load_data(file_path, sheet_name, password)]; [file] is what
    [open(file_path)] finds: no file, or a workbook.  The password only
    changes the protection record of the in-memory copy.  Whatever lines
    49 to 61 raise is caught at line 65. *)
Definition load_data (L : Library) (file : option Workbook)
    (sheet_name : string) : loaded :=
  match file with
  | None => NoFrames FileNotFound
  | Some workbook =>
      match sheet sheet_name workbook with
      | None => NoFrames (SheetNotFound sheet_name (map fst workbook))
      | Some df =>
          match normalize L df with
          | Ok (df_pago, df_pendente) => Frames df_pago df_pendente
          | Raise FileNotFoundError => NoFrames FileNotFound
          | Raise e => NoFrames (LoadFailure e)
          end
      end
  end.

(** ** Dates, membership and ordering *)

Definition ns_per_day : Z := 86400000000000.

(** [Timestamp.date()]; [NaT.date()] is NaT again. *)
Definition date (t : option Z) : option Z :=
  option_map (fun t => (t / ns_per_day)%Z) t.

(** [pd.to_datetime(d)] for a calendar date [d] (days since the epoch):
    midnight of that day. *)
Definition timestamp_of_date (d : Z) : Z := (d * ns_per_day)%Z.

(** [Series.min()] and [Series.max()] on a date-time series: NaT is
    skipped, and NaT is the result when nothing is left. *)
Fixpoint series_min (s : list (option Z)) : option Z :=
  match s with
  | [] => None
  | x :: s' =>
      match x, series_min s' with
      | Some a, Some b => Some (Z.min a b)
      | Some a, None => Some a
      | None, m => m
      end
  end.

Fixpoint series_max (s : list (option Z)) : option Z :=
  match s with
  | [] => None
  | x :: s' =>
      match x, series_max s' with
      | Some a, Some b => Some (Z.max a b)
      | Some a, None => Some a
      | None, m => m
      end
  end.

(** [Series.between(left, right)], inclusive on both sides; NaT is in no
    interval. *)
Definition between (left right : Z) (d : option Z) : bool :=
  match d with
  | Some t => (left <=? t)%Z && (t <=? right)%Z
  | None => false
  end.

(** Equality of two cells as [isin] and [unique] see it. *)
Definition cell_eqb (a b : cell) : bool :=
  match a, b with
  | Empty, Empty => true
  | Number x, Number y => PrimFloat.eqb x y
  | Text s, Text t => String.eqb s t
  | DateTime s, DateTime t => Z.eqb s t
  | _, _ => false
  end.

(** [Series.isin(values)], element by element. *)
Definition isin {A : Type} (eqb : A -> A -> bool) (values : list A) (x : A)
  : bool :=
  existsb (eqb x) values.

(** [Series.unique()]: the distinct values in order of first appearance. *)
Fixpoint unique {A : Type} (eqb : A -> A -> bool) (s : list A) : list A :=
  match s with
  | [] => []
  | x :: s' => x :: filter (fun y => negb (eqb x y)) (unique eqb s')
  end.

(** Python's [a < b] on two cell values: defined within one type, a
    TypeError across types. *)
Definition cell_lt (a b : cell) : result bool :=
  match a, b with
  | Number x, Number y => Ok (PrimFloat.ltb x y)
  | Text s, Text t => Ok (String.ltb s t)
  | DateTime s, DateTime t => Ok (s <? t)%Z
  | _, _ => Raise (TypeError "'<' not supported between these instances")
  end.

Fixpoint insert_cell (x : cell) (l : list cell) : result (list cell) :=
  match l with
  | [] => Ok [x]
  | y :: l' =>
      lt <- cell_lt x y ;;
      if lt then Ok (x :: y :: l')
      else l'' <- insert_cell x l' ;; Ok (y :: l'')
  end.

(** [sorted(values)] on cell values: stable, raising on a mixed list. *)
Fixpoint sorted_cells (l : list cell) : result (list cell) :=
  match l with
  | [] => Ok []
  | x :: l' => s <- sorted_cells l' ;; insert_cell x s
  end.

Fixpoint insert_string (x : string) (l : list string) : list string :=
  match l with
  | [] => [x]
  | y :: l' => if String.ltb x y then x :: y :: l' else y :: insert_string x l'
  end.

(** [sorted(values)] on strings. *)
Fixpoint sorted_strings (l : list string) : list string :=
  match l with
  | [] => []
  | x :: l' => insert_string x (sorted_strings l')
  end.

(** ** The filter engine (lines 184 to 189) *)

(** The script's four frame variables. *)
Record Vars : Type := mkVars {
  df_pago_original : DataFrame;
  df_pendente_original : DataFrame;
  df_pago_filtered : DataFrame;
  df_pendente_filtered : DataFrame
}.

(** What the sidebar widgets returned: the tuple of [date_input] (calendar
    dates, days since the epoch) and the two multiselect lists. *)
Record Selection : Type := mkSelection {
  date_range : list Z;
  selected_correspondentes : list cell;
  selected_rms : list string
}.

Definition selected (s : Selection) (r : Invoice) : bool :=
  isin cell_eqb (selected_correspondentes s) (correspondente r)
  && isin String.eqb (selected_rms s) (numero_rm r).

(** Lines 185 to 187: the date filter on the paid frame. *)
Definition filter_dates (s : Selection) (df : DataFrame) : DataFrame :=
  match date_range s with
  | [d0; d1] =>
      let start_date := timestamp_of_date d0 in
      let end_date := timestamp_of_date d1 in
      filter (fun r => between start_date end_date (data_pagamento r)) df
  | _ => df
  end.

(** Lines 184 to 189, as an update of the script's variables. *)
Definition apply_filters (s : Selection) (v : Vars) : Vars :=
  (* line 184: copies of the originals *)
  let pago := df_pago_original v in
  let pendente := df_pendente_original v in
  (* lines 185 to 187 *)
  let pago := filter_dates s pago in
  (* lines 188 and 189 *)
  let pago := filter (selected s) pago in
  let pendente := filter (selected s) pendente in
  mkVars (df_pago_original v) (df_pendente_original v) pago pendente.

(** The frames a second pass would start from: the first pass's output. *)
Definition refilter (s : Selection) (v : Vars) : Vars :=
  apply_filters s
    (mkVars (df_pago_filtered v) (df_pendente_filtered v)
            (df_pago_filtered v) (df_pendente_filtered v)).

(** ** Formatting (lines 24 to 30) *)

(** [s.replace(a, b)] for one-character [a] and [b]. *)
Fixpoint replace_char (a b : Ascii.ascii) (s : string) : string :=
  match s with
  | EmptyString => EmptyString
  | String c s' => String (if Ascii.eqb c a then b else c) (replace_char a b s')
  end.

Definition format_currency (L : Library) (value : float) : string :=
  if isna value then "R$ 0,00"
  else "R$ " ++ replace_char "X"%char "."%char
                  (replace_char "."%char ","%char
                     (replace_char ","%char "X"%char (format_2f L value))).

Definition format_foreign_currency (L : Library) (value : float) : string :=
  if isna value then "0.00" else format_2f L value.

(** ** Reductions, grouping and ranking *)

(** The first position of the largest value, NaN skipped, from position
    [i] on, given the best so far. *)
Fixpoint argmax_from (i : nat) (best : option (nat * float)) (s : list float)
  : option (nat * float) :=
  match s with
  | [] => best
  | x :: s' =>
      let best' :=
        if isna x then best
        else match best with
             | None => Some (i, x)
             | Some (_, b) => if PrimFloat.ltb b x then Some (i, x) else best
             end in
      argmax_from (S i) best' s'
  end.

(** [Series.idxmax()], by position: a ValueError on a series with no
    value to compare. *)
Definition idxmax (s : list float) : result nat :=
  match argmax_from 0 None s with
  | Some (i, _) => Ok i
  | None => Raise (ValueError "attempt to get argmax of an empty sequence")
  end.

(** [Series.max()]: NaN when there is no value. *)
Definition series_max_value (s : list float) : float :=
  match argmax_from 0 None s with
  | Some (_, b) => b
  | None => nan
  end.

(** [df.loc[label]] for the label [idxmax] gave. *)
Definition loc {A : Type} (df : list A) (i : nat) : result A :=
  match nth_error df i with
  | Some r => Ok r
  | None => Raise (KeyError "label")
  end.

(** The order group keys are sorted in: within one type by value, numbers
    before date-times before texts. *)
Definition cell_rank (c : cell) : nat :=
  match c with Number _ => 0 | DateTime _ => 1 | Text _ => 2 | Empty => 3 end.

Definition cell_ltb (a b : cell) : bool :=
  match a, b with
  | Number x, Number y => PrimFloat.ltb x y
  | Text s, Text t => String.ltb s t
  | DateTime s, DateTime t => (s <? t)%Z
  | _, _ => Nat.ltb (cell_rank a) (cell_rank b)
  end.

Definition pair_eqb (a b : cell * cell) : bool :=
  cell_eqb (fst a) (fst b) && cell_eqb (snd a) (snd b).

Definition pair_ltb (a b : cell * cell) : bool :=
  cell_ltb (fst a) (fst b)
  || (cell_eqb (fst a) (fst b) && cell_ltb (snd a) (snd b)).

Section GroupBy.
Context {K V : Type} (eqb ltb : K -> K -> bool).

Fixpoint insert_group (k : K) (v : V) (groups : list (K * list V))
  : list (K * list V) :=
  match groups with
  | [] => [(k, [v])]
  | (k', vs) :: groups' =>
      if eqb k k' then (k', vs ++ [v]) :: groups'
      else if ltb k k' then (k, [v]) :: groups
      else (k', vs) :: insert_group k v groups'
  end.

(** [df.groupby(key)]: the groups in key order, each with its rows'
    values in frame order. *)
Definition groupby (key : Invoice -> K) (val : Invoice -> V)
    (df : DataFrame) : list (K * list V) :=
  fold_left (fun groups r => insert_group (key r) (val r) groups) df [].
End GroupBy.

(** [df.groupby(key)[col].sum()]. *)
Definition groupby_sum {K : Type} (L : Library) (eqb ltb : K -> K -> bool)
    (key : Invoice -> K) (col : Invoice -> float) (df : DataFrame)
  : list (K * float) :=
  map (fun g => (fst g, series_sum L (snd g))) (groupby eqb ltb key col df).

(** The key of the largest group sum: [idxmax] on a grouped series. *)
Definition idxmax_key {K : Type} (s : list (K * float)) : result K :=
  i <- idxmax (map snd s) ;; fmap fst (loc s i).

Section Ranking.
Context {A : Type} (val : A -> float).

Fixpoint insert_desc (x : A) (l : list A) : list A :=
  match l with
  | [] => [x]
  | y :: l' =>
      if PrimFloat.ltb (val x) (val y) then y :: insert_desc x l'
      else x :: y :: l'
  end.

Fixpoint sort_desc (l : list A) : list A :=
  match l with
  | [] => []
  | x :: l' => insert_desc x (sort_desc l')
  end.

(** [sort_values(ascending=False)]: largest first, NaN last. *)
Definition sort_values_desc (l : list A) : list A :=
  sort_desc (filter (fun x => negb (isna (val x))) l)
  ++ filter (fun x => isna (val x)) l.

(** [nlargest(n)]. *)
Definition nlargest (n : nat) (l : list A) : list A :=
  firstn n (sort_values_desc l).
End Ranking.

(** ** The overview page (lines 70 to 103) *)

(** [df.empty]. *)
Definition empty {A : Type} (df : list A) : bool :=
  match df with [] => true | _ :: _ => false end.

(** The variables lines 73 to 77 bind. *)
Record Kpis : Type := mkKpis {
  valor_total_geral_pago : float;
  maior_fatura_row : option Invoice;
  rm_maior_desembolso : string;
  corr_maior_pago : cell;
  rm_maior_desembolso_group : list (string * float);
  corr_maior_pago_group : list (cell * float)
}.

Definition kpis (L : Library) (df_pago : DataFrame) : result Kpis :=
  if negb (empty df_pago) then
    (* line 74 *)
    let total := series_sum L (map valor_total_pago df_pago) in
    i <- idxmax (map valor_total_pago df_pago) ;;
    row <- loc df_pago i ;;
    let rm_group :=
      groupby_sum L String.eqb String.ltb numero_rm valor_total_pago df_pago in
    let corr_group :=
      groupby_sum L cell_eqb cell_ltb correspondente valor_total_pago df_pago in
    (* line 75 *)
    rm <- (if negb (empty rm_group) then idxmax_key rm_group else Ok "N/A") ;;
    corr <- (if negb (empty corr_group) then idxmax_key corr_group
             else Ok (Text "N/A")) ;;
    Ok (mkKpis total (Some row) rm corr rm_group corr_group)
  else
    (* line 77 *)
    Ok (mkKpis 0%float None "N/A" (Text "N/A") [] []).

(** One [st.metric]: label, value and help text. *)
Record Metric : Type := mkMetric {
  metric_label : string;
  metric_value : cell;
  metric_help : string
}.

Definition help_valor (L : Library) {K : Type} (group : list (K * float))
  : string :=
  "Valor: " ++ (if negb (empty group)
                then format_currency L (series_max_value (map snd group))
                else "R$ 0,00").

(** Lines 79 to 82. *)
Definition metrics (L : Library) (k : Kpis) : list Metric :=
  [ mkMetric "Valor Total Pago"
      (Text (format_currency L (valor_total_geral_pago k))) "";
    mkMetric "Maior Fatura Paga"
      (match maior_fatura_row k with
       | Some r => Text (format_currency L (valor_total_pago r))
       | None => Text "N/A"
       end)
      (match maior_fatura_row k with
       | Some r => "ND: " ++ nd_recebida r ++ " | Corr: "
                   ++ astype_str L (correspondente r)
       | None => ""
       end);
    mkMetric "RM com Maior Desembolso" (Text (rm_maior_desembolso k))
      (help_valor L (rm_maior_desembolso_group k));
    mkMetric "Correspondente com Maior Desembolso" (corr_maior_pago k)
      (help_valor L (corr_maior_pago_group k)) ].

(** The components of a payment, in the order of [legend_map]. *)
Definition legend_map : list ((Invoice -> float) * string) :=
  [ (valor_principal_rs, "Valor Principal R$"); (iof, "IOF"); (irrf, "IRRF");
    (cide, "CIDE"); (tx_contrato, "Taxa do Contrato") ].

(** A row of [pag_por_corr]: the summed components and their total. *)
Record Composition : Type := mkComposition {
  comp_correspondente : cell;
  comp_valores : list float;
  comp_total : float
}.

(** Lines 88 and 89 (and 119 and 120). *)
Definition pag_por_corr (L : Library) (df : DataFrame) : list Composition :=
  map (fun g =>
         let valores :=
           map (fun f => series_sum L (map (fst f) (snd g))) legend_map in
         mkComposition (fst g) valores (series_sum L valores))
      (groupby cell_eqb cell_ltb correspondente (fun r => r) df).

(** A bar of the stacked chart: a row of the melted frame. *)
Record Bar : Type := mkBar {
  bar_correspondente : cell;
  bar_componente : string;
  bar_valor : float;
  bar_total : float;
  bar_percent : float
}.

(** Lines 92 to 94 (and 121 to 123): melt, merge and percentages. *)
Definition melted (data : list Composition) : list Bar :=
  flat_map (fun j =>
              map (fun c =>
                     let valor := nth j (comp_valores c) nan in
                     mkBar (comp_correspondente c)
                           (nth j (map snd legend_map) "")
                           valor (comp_total c)
                           (PrimFloat.mul (PrimFloat.div valor (comp_total c))
                                          100%float))
                  data)
           (seq 0 (List.length legend_map)).

(** What the overview page hands to the display. *)
Record Overview : Type := mkOverview {
  overview_metrics : list Metric;
  overview_bars : option (nat * list Bar);
  overview_treemap : option DataFrame
}.

Definition display_visao_geral (L : Library) (show_all : bool)
    (df_pago : DataFrame) : result Overview :=
  k <- kpis L df_pago ;;
  let bars :=
    if negb (empty df_pago) then
      let pag := pag_por_corr L df_pago in
      let top_n := if show_all then List.length pag else 20%nat in
      Some (top_n, melted (nlargest comp_total top_n pag))
    else None in
  let treemap := if negb (empty df_pago) then Some df_pago else None in
  Ok (mkOverview (metrics L k) bars treemap).

(** ** The counterparty page (lines 136 to 160) *)

Record Correspondentes : Type := mkCorrespondentes {
  (* None: "Não há pagamentos para exibir o ranking." *)
  ranking : option (list (cell * string));
  ranking_raw : option (list (cell * float));
  (* None: "Não há faturas pendentes." *)
  pendencias : option (list (cell * cell * nat * string))
}.

Definition display_correspondentes (L : Library)
    (df_pago df_pendente : DataFrame) : result Correspondentes :=
  let por_corr :=
    groupby_sum L cell_eqb cell_ltb correspondente valor_total_pago df_pago in
  (* lines 141 to 146 *)
  let ranking :=
    if negb (empty df_pago) then
      Some (map (fun kv => (fst kv, format_currency L (snd kv)))
                (sort_values_desc snd por_corr))
    else None in
  (* lines 149 to 152 *)
  let ranking_raw :=
    if negb (empty df_pago) then Some (nlargest snd 10 por_corr) else None in
  (* lines 155 to 160 *)
  let pendencias :=
    if negb (empty df_pendente) then
      let groups :=
        groupby pair_eqb pair_ltb (fun r => (correspondente r, moeda r))
                valor_moeda_origem df_pendente in
      let agg :=
        map (fun g => (fst g, List.length (snd g), series_sum L (snd g)))
            groups in
      Some (map (fun row =>
                   match row with
                   | (k, count, sum) =>
                       (fst k, snd k, count, format_foreign_currency L sum)
                   end)
                (sort_values_desc snd agg))
    else None in
  Ok (mkCorrespondentes ranking ranking_raw pendencias).

(** ** The page by RM (lines 105 to 134) *)

Fixpoint traverse {A B : Type} (f : A -> result B) (l : list A)
  : result (list B) :=
  match l with
  | [] => Ok []
  | x :: l' => y <- f x ;; ys <- traverse f l' ;; Ok (y :: ys)
  end.

(** [int(r)]: a ValueError on a text that is no integer literal. *)
Definition int (L : Library) (r : string) : result Z :=
  match int_of_str L r with
  | Some z => Ok z
  | None => Raise (ValueError "invalid literal for int() with base 10")
  end.

(** [max] of a non-empty list of integers. *)
Definition max_int (z : Z) (l : list Z) : Z := fold_left Z.max l z.

(** A row of the table of entries, its money columns formatted. *)
Record Lancamento : Type := mkLancamento {
  l_nd_recebida : string;
  l_correspondente : cell;
  l_iof : string;
  l_tx_contrato : string;
  l_valor_principal_rs : string;
  l_irrf : string;
  l_cide : string;
  l_valor_total_pago : string
}.

Record RmDetalhado : Type := mkRmDetalhado {
  (* None: "Não há pagamentos para os RMs selecionados." *)
  rm_bars : option (list Bar);
  rm_tabela : list Lancamento
}.

(** [st.multiselect(label, options, default=default)]: Streamlit refuses
    a default that is not among the options; otherwise the widget returns
    what the user picks, [multiselect options default]. *)
Definition st_multiselect
    (multiselect : list string -> list string -> list string)
    (options default : list string) : result (list string) :=
  if forallb (isin String.eqb options) default
  then Ok (multiselect options default)
  else Raise (StreamlitAPIException
                "Every Multiselect default value must exist in options").

(** [multiselect] is the user's hand on the widget of line 112: from the
    options and the default to the selection.  [None] is the page with
    nothing selected. *)
Definition display_rm_detalhado (L : Library)
    (multiselect : list string -> list string -> list string)
    (df_pago df_pendente : DataFrame) : result (option RmDetalhado) :=
  let df_completo := df_pago ++ df_pendente in
  let lista_rms :=
    sorted_strings (unique String.eqb (map numero_rm df_completo)) in
  numeric_rms <- traverse (int L) (filter (str_isdigit L) lista_rms) ;;
  let default_rm_val :=
    match numeric_rms with
    | z :: zs => [str_of_int L (max_int z zs)]
    | [] => match lista_rms with r :: _ => [r] | [] => [] end
    end in
  rm_selecionados <- st_multiselect multiselect lista_rms default_rm_val ;;
  if negb (empty rm_selecionados) then
    let df_rm :=
      filter (fun r => isin String.eqb rm_selecionados (numero_rm r))
             df_completo in
    let df_rm_pago := filter is_pago df_rm in
    let bars :=
      if negb (empty df_rm_pago) then Some (melted (pag_por_corr L df_rm_pago))
      else None in
    let tabela :=
      map (fun r =>
             mkLancamento (nd_recebida r) (correspondente r)
               (format_currency L (iof r)) (format_currency L (tx_contrato r))
               (format_currency L (valor_principal_rs r))
               (format_currency L (irrf r)) (format_currency L (cide r))
               (format_currency L (valor_total_pago r)))
          df_rm in
    Ok (Some (mkRmDetalhado bars tabela))
  else Ok None.

(** ** The script (lines 165 to 199) *)

Inductive Page : Type := VisaoGeral | RmDetalhadoPage | CorrespondentesPage.

(** The user's hand on the widgets that return something: what is chosen,
    as a function of what the widget was given.  [pick_dates] is given the
    two dates that are the value and the bounds of the date widget.  The
    defaults the two multiselects of the sidebar are given at lines 178
    and 182 are their own options or nothing, which Streamlit accepts. *)
Record Widgets : Type := mkWidgets {
  pick_dates : Z -> Z -> list Z;
  select_all_corr : bool;
  multiselect_corr : list cell -> list cell -> list cell;
  select_all_rms : bool;
  multiselect_rms : list string -> list string -> list string;
  radio_page : Page;
  checkbox_show_all : bool;
  multiselect_rm : list string -> list string -> list string
}.

Inductive View : Type :=
| Stopped (why : load_error)
| ShowVisaoGeral (o : Overview)
| ShowRmDetalhado (d : option RmDetalhado)
| ShowCorrespondentes (c : Correspondentes).

(** Line 174: [st.sidebar.date_input(label, value=(min_date, max_date),
    min_value=min_date, max_value=max_date)].  Streamlit takes the dates
    of its three arguments and formats them with [strftime]; NaT passes
    for a date-time, [NaT.date()] is NaT again, and formatting it raises. *)
Definition date_input (W : Widgets) (bounds : option Z * option Z)
  : result (list Z) :=
  match bounds with
  | (Some min_date, Some max_date) => Ok (pick_dates W min_date max_date)
  | _ => Raise (ValueError "NaTType does not support timetuple")
  end.

(** Line 173: the bounds of the payment dates of the paid frame. *)
Definition date_bounds (df_pago_original : DataFrame) : option Z * option Z :=
  (date (series_min (map data_pagamento df_pago_original)),
   date (series_max (map data_pagamento df_pago_original))).

(** One run of the script: a render cycle. *)
Definition script (L : Library) (W : Widgets) (file : option Workbook)
    (sheet_name : string) : result View :=
  match load_data L file sheet_name with
  | NoFrames why => Ok (Stopped why)                      (* lines 166 to 168 *)
  | Frames df_pago_original df_pendente_original =>
      let df_completo_original := df_pago_original ++ df_pendente_original in
      (* lines 173 and 174 *)
      date_range <- date_input W (date_bounds df_pago_original) ;;
      (* lines 176 to 178 *)
      correspondentes <-
        sorted_cells (unique cell_eqb
                        (map correspondente df_completo_original)) ;;
      let default_corr := if select_all_corr W then correspondentes else [] in
      let selected_correspondentes :=
        multiselect_corr W correspondentes default_corr in
      (* lines 180 to 182 *)
      let rms :=
        sorted_strings (unique String.eqb
                          (map numero_rm df_completo_original)) in
      let default_rms := if select_all_rms W then rms else [] in
      let selected_rms := multiselect_rms W rms default_rms in
      (* lines 184 to 189 *)
      let v :=
        apply_filters
          (mkSelection date_range selected_correspondentes selected_rms)
          (mkVars df_pago_original df_pendente_original
                  df_pago_original df_pendente_original) in
      (* lines 192 to 199 *)
      match radio_page W with
      | VisaoGeral =>
          fmap ShowVisaoGeral
               (display_visao_geral L (checkbox_show_all W)
                                    (df_pago_filtered v))
      | RmDetalhadoPage =>
          fmap ShowRmDetalhado
               (display_rm_detalhado L (multiselect_rm W)
                  (df_pago_filtered v) (df_pendente_filtered v))
      | CorrespondentesPage =>
          fmap ShowCorrespondentes
               (display_correspondentes L
                  (df_pago_filtered v) (df_pendente_filtered v))
      end
  end.

(** ** Readings used in the statements *)

(** The cell of a row under a label ([Empty] when the label is absent). *)
Definition cell_of (df : RawFrame) (col : string) (r : list cell) : cell :=
  match index_of col (columns df) with
  | Some i => nth i r Empty
  | None => Empty
  end.

(** What lines 53 to 60 make of one row of the frame of line 51. *)
Definition normalize_row (L : Library) (df : RawFrame) (r : list cell)
  : Invoice :=
  let num col := fillna0 (to_numeric L (cell_of df col r)) in
  let data := to_datetime L (cell_of df "data_pagamento" r) in
  mkInvoice data (num "valor_principal_rs")
    (astype_str L (fillna (Text "Não informado") (cell_of df "numero_rm" r)))
    (fillna (Text "Não informado") (cell_of df "correspondente" r))
    (astype_str L (fillna (Text "Não informada") (cell_of df "nd_recebida" r)))
    (num "iof") (num "tx_contrato") (num "irrf") (num "cide")
    (fillna (Text "N/A") (cell_of df "moeda" r))
    (num "valor_moeda_origem")
    (if notna data then "Pago" else "Pendente")
    (PrimFloat.add
       (PrimFloat.add
          (PrimFloat.add
             (PrimFloat.add (num "valor_principal_rs") (num "iof"))
             (num "tx_contrato"))
          (num "irrf"))
       (num "cide")).

(** How lines 53 to 58 read a column: through [pd.to_numeric], as it is,
    or through [pd.to_datetime]. *)
Inductive reading : Type := AsNumber | AsObject | AsDate.

(** The labels [normalize] reads, in the order it reads them, each with
    the way it is read. *)
Definition reads : list (string * reading) :=
  [ ("valor_principal_rs", AsNumber); ("iof", AsNumber);
    ("tx_contrato", AsNumber); ("irrf", AsNumber); ("cide", AsNumber);
    ("valor_moeda_origem", AsNumber); ("numero_rm", AsObject);
    ("nd_recebida", AsObject); ("correspondente", AsObject);
    ("moeda", AsObject); ("data_pagamento", AsDate) ].

(** The number of columns that carry a label. *)
Definition count_label (col : string) (cols : list string) : nat :=
  List.length (positions col cols).

(** What reading a label raises, if anything: a KeyError when no column
    carries it, and the refusal of [pd.to_numeric] or [pd.to_datetime]
    when several do. *)
Definition read_error (df : RawFrame) (cr : string * reading) : option exn :=
  match count_label (fst cr) (columns df) with
  | 0%nat => Some (KeyError (fst cr))
  | 1%nat => None
  | _ =>
      match snd cr with
      | AsNumber =>
          Some (TypeError "arg must be a list, tuple, 1-d array, or Series")
      | AsObject => None
      | AsDate => Some (ValueError "cannot assemble with duplicate keys")
      end
  end.

Fixpoint first_some {A B : Type} (f : A -> option B) (l : list A)
  : option B :=
  match l with
  | [] => None
  | x :: l' => match f x with Some y => Some y | None => first_some f l' end
  end.

(** The first exception lines 53 to 58 raise on a frame, if any. *)
Definition first_error (df : RawFrame) : option exn :=
  first_some (read_error df) reads.

(** The rows of the frame of line 60, before the split. *)
Definition frame_rows (L : Library) (raw : RawFrame) : DataFrame :=
  let df := keep_known (rename raw) in
  map (normalize_row L df) (rows df).

(** The rows of the normalised frame, read off the renamed sheet. *)
Definition records (L : Library) (raw : RawFrame) : DataFrame :=
  map (normalize_row L (rename raw)) (rows raw).

(** [l] is [l'] with some elements left out, the others in their order. *)
Inductive Subsequence {A : Type} : list A -> list A -> Prop :=
| subseq_nil : Subsequence [] []
| subseq_keep (x : A) (l l' : list A) :
    Subsequence l l' -> Subsequence (x :: l) (x :: l')
| subseq_skip (x : A) (l l' : list A) :
    Subsequence l l' -> Subsequence l (x :: l').

(** Line 52. *)
Definition numeric_cols : list string :=
  [ "valor_principal_rs"; "iof"; "tx_contrato"; "irrf"; "cide";
    "valor_moeda_origem" ].




(** The four metrics of the overview of an empty paid frame. *)
Definition empty_metrics (L : Library) : list Metric :=
  [ mkMetric "Valor Total Pago" (Text (format_currency L 0%float)) "";
    mkMetric "Maior Fatura Paga" (Text "N/A") "";
    mkMetric "RM com Maior Desembolso" (Text "N/A") "Valor: R$ 0,00";
    mkMetric "Correspondente com Maior Desembolso" (Text "N/A")
             "Valor: R$ 0,00" ].

(** ** Example data *)

(** A library that parses no text: every text is unparseable to it. *)
Definition plain_library : Library :=
  mkLibrary (fun _ => None) (fun _ => None) (fun _ => None) (fun _ => None)
            (fun c => match c with Text s => s | _ => "" end)
            (fun s => fold_left PrimFloat.add
                                (filter (fun x => negb (isna x)) s) 0%float)
            (fun _ => "0.00") (fun _ => false) (fun _ => None)
            (fun _ => "0").

Definition example_headers : list string :=
  [ "Data de Pagamento"; "Valor em R$"; "Número do RM"; "Correspondente";
    "ND recebida"; "IOF"; "TX CONTRATO"; "IRRF"; "CIDE"; "Moeda"; "Valor";
    "Observações" ].

(** 15 January 2024, midnight. *)
Definition jan15 : Z := (19737 * ns_per_day)%Z.

Definition paid_row : list cell :=
  [ DateTime jan15; Number 1500.5%float; Text "123"; Text "Acme";
    Text "ND-1"; Number 10%float; Number 2%float; Number 3%float;
    Number 4%float; Text "USD"; Number 300%float; Text "ok" ].

Definition pending_row : list cell :=
  [ Empty; Number 200%float; Text "124"; Empty; Empty; Text "n/d"; Empty;
    Empty; Empty; Empty; Number 40%float; Empty ].

Definition example_workbook : Workbook :=
  [ ("Faturas", mkRaw example_headers [paid_row; pending_row]) ].

Definition paid_invoice : Invoice :=
  mkInvoice (Some jan15) 1500.5%float "123" (Text "Acme") "ND-1" 10%float
            2%float 3%float 4%float (Text "USD") 300%float "Pago"
            1519.5%float.

Definition pending_invoice : Invoice :=
  mkInvoice None 200%float "124" (Text "Não informado") "Não informada"
            0%float 0%float 0%float 0%float (Text "N/A") 40%float "Pendente"
            200%float.

(** A sheet like the example's, without its IOF column. *)
Definition workbook_without_iof : Workbook :=
  [ ("Faturas",
     mkRaw [ "Data de Pagamento"; "Valor em R$"; "Número do RM";
             "Correspondente"; "ND recebida"; "TX CONTRATO"; "IRRF"; "CIDE";
             "Moeda"; "Valor" ]
           [ [ DateTime jan15; Number 1500.5%float; Text "123"; Text "Acme";
               Text "ND-1"; Number 2%float; Number 3%float; Number 4%float;
               Text "USD"; Number 300%float ] ]) ].



Definition jan01 : Z := 19723.
Definition jan31 : Z := 19753.
Definition feb01 : Z := 19754.

Definition paid_on (day : Z) (nd : string) : Invoice :=
  mkInvoice (Some (timestamp_of_date day)) 100%float "123" (Text "Acme") nd
            0%float 0%float 0%float 0%float (Text "USD") 0%float "Pago"
            100%float.

Definition example_vars : Vars :=
  mkVars [paid_on jan31 "ND-31"; paid_on feb01 "ND-32"] [pending_invoice]
         [] [].

Definition january : Selection :=
  mkSelection [jan01; jan31] [Text "Acme"; Text "Não informado"]
              ["123"; "124"].

Definition no_counterparty : Selection :=
  mkSelection [jan01; jan31] [] ["123"; "124"].

(** The widgets as a user leaves them who touches none. *)
Definition strict_widgets : Widgets :=
  mkWidgets (fun lo hi => [lo; hi])
    true (fun _ default => default) true (fun _ default => default)
    VisaoGeral false (fun _ default => default).

Definition pending_workbook : Workbook :=
  [ ("Faturas", mkRaw example_headers [pending_row]) ].

(** A paid invoice of a counterparty with only a principal. *)
Definition paid_to (corr : string) (valor : float) (nd : string) : Invoice :=
  mkInvoice (Some jan15) valor "123" (Text corr) nd 0%float 0%float 0%float
            0%float (Text "USD") 0%float "Pago" valor.

Definition three_paid : DataFrame :=
  [ paid_to "Acme" 100%float "ND-1"; paid_to "Beta" 50%float "ND-2";
    paid_to "Acme" 200%float "ND-3" ].

(** Noon of 31 January 2024. *)
Definition jan31_noon : Z := (timestamp_of_date jan31 + 43200000000000)%Z.

(** ** Further readings and examples *)

(** Commas for points and points for commas. *)
Fixpoint swap_separators (s : string) : string :=
  match s with
  | EmptyString => EmptyString
  | String c s' =>
      String (if Ascii.eqb c ","%char then "."%char
              else if Ascii.eqb c "."%char then ","%char else c)
             (swap_separators s')
  end.

Fixpoint has_char (a : Ascii.ascii) (s : string) : bool :=
  match s with
  | EmptyString => false
  | String c s' => Ascii.eqb c a || has_char a s'
  end.

(** A library whose number format groups thousands, at one value. *)
Definition grouping_library : Library :=
  mkLibrary (fun _ => None) (fun _ => None) (fun _ => None) (fun _ => None)
            (fun c => match c with Text s => s | _ => "" end)
            (fun s => fold_left PrimFloat.add
                                (filter (fun x => negb (isna x)) s) 0%float)
            (fun _ => "1,234.50") (fun _ => false) (fun _ => None)
            (fun _ => "0").

(** What lines 54 to 57 make of a cell [c] with the default [v]: the
    default for a missing cell, the cell itself for a text, and never a
    missing value. *)
Definition defaulted (v c x : cell) : Prop :=
  x = fillna v c
  /\ x <> Empty
  /\ (forall f, x = Number f -> isna f = false)
  /\ (c = Empty -> x = v)
  /\ (forall s, c = Text s -> x = Text s).

(** The example sheet with its headers already renamed. *)
Definition renamed_workbook : Workbook :=
  [ ("Faturas", rename (mkRaw example_headers [paid_row; pending_row])) ].

(** A payment on 31 January 2024 at noon. *)
Definition paid_at_noon : Invoice :=
  mkInvoice (Some jan31_noon) 100%float "123" (Text "Acme") "ND-33" 0%float
            0%float 0%float 0%float (Text "USD") 0%float "Pago" 100%float.

(** A paid frame with a payment at midnight and one at noon of 31 January
    2024. *)
Definition noon_vars : Vars :=
  mkVars [paid_on jan31 "ND-31"; paid_at_noon] [pending_invoice] [] [].

(** [a] is not after [b] in Python's order of strings. *)
Definition string_le (a b : string) : Prop := String.ltb b a = false.






(** The best so far is a number found before position [i]. *)
Definition best_before (i : nat) (best : option (nat * float)) : Prop :=
  forall jb bb, best = Some (jb, bb) -> isna bb = false /\ (jb < i)%nat.

(** [a] is not smaller than [b] in the column [val]. *)
Definition not_below {A : Type} (val : A -> float) (a b : A) : Prop :=
  PrimFloat.ltb (val a) (val b) = false.

Definition is_text (c : cell) : Prop := exists s, c = Text s.

(** The values grouped under a key ([[]] when the key has no group). *)
Fixpoint group_of {K V : Type} (eqb : K -> K -> bool) (k : K)
    (groups : list (K * list V)) : list V :=
  match groups with
  | [] => []
  | (k', vs) :: groups' => if eqb k k' then vs else group_of eqb k groups'
  end.

(** The groups are in strictly increasing key order. *)
Definition key_sorted {K V : Type} (ltb : K -> K -> bool)
    (groups : list (K * V)) : Prop :=
  StronglySorted (fun a b => ltb (fst a) (fst b) = true) groups.

(** Keys on which [eqb] is equality and [ltb] a strict total order. *)
Record key_order {K : Type} (eqb ltb : K -> K -> bool) (good : K -> Prop)
  : Prop := mkKeyOrder {
  ko_eqb : forall a b, good a -> good b -> (eqb a b = true <-> a = b);
  ko_irrefl : forall a, good a -> ltb a a = false;
  ko_trans : forall a b c, good a -> good b -> good c ->
             ltb a b = true -> ltb b c = true -> ltb a c = true;
  ko_total : forall a b, good a -> good b ->
             ltb a b = false -> a <> b -> ltb b a = true
}.

(** A cell that is not missing. *)
Definition filled (c : cell) : Prop :=
  c <> Empty /\ forall f, c = Number f -> isna f = false.

(** The count column of the table of pending invoices. *)
Definition pending_count (row : cell * cell * nat * string) : nat :=
  snd (fst row).

Definition int_error : exn :=
  ValueError "invalid literal for int() with base 10".

Definition default_error : exn :=
  StreamlitAPIException
    "Every Multiselect default value must exist in options".

Definition nat_error : exn :=
  ValueError "NaTType does not support timetuple".

(** Python on the text of the one character superscript two:
    [str.isdigit] holds of it and [int] refuses it. *)
Definition superscript_library : Library :=
  mkLibrary (fun _ => None) (fun _ => None) (fun _ => None) (fun _ => None)
            (fun c => match c with Text s => s | _ => "" end)
            (fun s => fold_left PrimFloat.add
                                (filter (fun x => negb (isna x)) s) 0%float)
            (fun _ => "0.00") (fun s => String.eqb s "²") (fun _ => None)
            (fun _ => "0").

(** Python on the text 007 and on the integer 7: [str.isdigit] holds of
    the text, [int] reads it as 7, and [str] writes 7 without the zeros. *)
Definition leading_zeros_library : Library :=
  mkLibrary (fun _ => None) (fun _ => None) (fun _ => None) (fun _ => None)
            (fun c => match c with Text s => s | _ => "" end)
            (fun s => fold_left PrimFloat.add
                                (filter (fun x => negb (isna x)) s) 0%float)
            (fun _ => "0.00") (fun s => String.eqb s "007")
            (fun s => if String.eqb s "007" then Some 7%Z else None)
            (fun _ => "7").

(** A pending invoice with the given reference number. *)
Definition pending_rm (rm : string) : Invoice :=
  mkInvoice None 200%float rm (Text "Acme") "ND-5" 0%float 0%float 0%float
            0%float (Text "USD") 40%float "Pendente" 200%float.

(** * Properties *)

(** ** The frame row by row *)

Lemma add_series_map {A : Type} (f g : A -> float) (l : list A) :
  add_series (map f l) (map g l)
  = map (fun x => PrimFloat.add (f x) (g x)) l.
Proof.
  unfold add_series. induction l as [|x l IH]; simpl.
  - reflexivity.
  - f_equal. exact IH.
Qed.

Lemma nth_map_in {A B : Type} (g : A -> B) (l : list A) (d : A) (e : B)
    (i : nat) :
  (i < List.length l)%nat -> nth i (map g l) e = g (nth i l d).
Proof.
  intros Hi. rewrite (nth_indep (map g l) e (g d)).
  - apply map_nth.
  - rewrite length_map. exact Hi.
Qed.

Lemma map_seq_rows {A B : Type} (l : list A) (d : A) (F : A -> B)
    (G : nat -> B) :
  (forall i, (i < List.length l)%nat -> G i = F (nth i l d)) ->
  map G (seq 0 (List.length l)) = map F l.
Proof.
  intros H. apply nth_ext with (d := G 0%nat) (d' := F d).
  - now rewrite !length_map, length_seq.
  - intros i Hi. rewrite length_map, length_seq in Hi.
    rewrite (nth_map_in G (seq 0 (List.length l)) 0%nat (G 0%nat) i)
      by now rewrite length_seq.
    rewrite seq_nth by exact Hi. simpl.
    rewrite (nth_map_in F l d (F d) i) by exact Hi.
    apply H. exact Hi.
Qed.

Lemma index_of_isin (col : string) (cols : list string) :
  isin_columns col cols = match index_of col cols with
                          | Some _ => true
                          | None => false
                          end.
Proof.
  unfold isin_columns. induction cols as [|c cs IH]; simpl.
  - reflexivity.
  - destruct (String.eqb col c); simpl.
    + reflexivity.
    + rewrite IH. now destruct (index_of col cs).
Qed.

(** The first of the positions of a label is where [index_of] finds it. *)
Lemma positions_from_head (i : nat) (col : string) (cols : list string) :
  hd_error (positions_from i col cols)
  = option_map (Nat.add i) (index_of col cols).
Proof.
  revert i. induction cols as [|c cs IH]; intros i; simpl.
  - reflexivity.
  - destruct (String.eqb col c); simpl.
    + f_equal. lia.
    + rewrite IH. destruct (index_of col cs); simpl; [ f_equal; lia | ].
      reflexivity.
Qed.

Lemma positions_head (col : string) (cols : list string) :
  hd_error (positions col cols) = index_of col cols.
Proof.
  unfold positions. rewrite positions_from_head.
  now destruct (index_of col cols).
Qed.

Lemma column_cell_of (df : RawFrame) (col : string) (i : nat) :
  index_of col (columns df) = Some i ->
  column df i = map (cell_of df col) (rows df).
Proof.
  intros H. unfold column, cell_of. rewrite H. reflexivity.
Qed.

Lemma getitem_cases (df : RawFrame) (col : string) :
  getitem df col
  = match positions col (columns df) with
    | [] => Raise (KeyError col)
    | [_] => Ok (Series (map (cell_of df col) (rows df)))
    | _ :: js => Ok (SubFrame (map (cell_of df col) (rows df))
                              (map (column df) js))
    end.
Proof.
  unfold getitem. pose proof (positions_head col (columns df)) as H.
  destruct (positions col (columns df)) as [|i js]; [ reflexivity | ].
  simpl in H. symmetry in H.
  rewrite (column_cell_of df col i H). reflexivity.
Qed.

(** [normalize] in one equation: the first exception of lines 53 to 58, and
    otherwise the rows of [frame_rows], split on their status. *)
Lemma normalize_eq (L : Library) (raw : RawFrame) :
  normalize L raw
  = match first_error (keep_known (rename raw)) with
    | Some e => Raise e
    | None => Ok (filter is_pago (frame_rows L raw),
                  filter is_pendente (frame_rows L raw))
    end.
Proof.
  unfold normalize, frame_rows, first_error, numeric_column, object_column,
    datetime_column.
  set (df := keep_known (rename raw)).
  rewrite !getitem_cases.
  unfold reads, read_error, count_label. cbn [first_some fst snd].
  repeat match goal with
         | |- context [positions ?c (columns df)] =>
             destruct (positions c (columns df)) as [|? [|? ?]];
             cbn [bind List.length]; try reflexivity
         end.
  all: rewrite !map_map, !add_series_map.
  all: unfold frame_of_columns.
  all: rewrite (map_seq_rows (rows df) [] (normalize_row L df));
    [ reflexivity | ].
  all: intros i Hi.
  all: rewrite !(nth_map_in _ (rows df) [] _ i Hi).
  all: reflexivity.
Qed.

(** ** Line 51 keeps what the later lines read *)

Lemma isin_filter (p : string -> bool) (col : string) (l : list string) :
  isin_columns col (filter p l) = isin_columns col l && p col.
Proof.
  unfold isin_columns. induction l as [|c l IH]; simpl.
  - reflexivity.
  - destruct (p c) eqn:Hp; simpl; rewrite IH.
    + destruct (String.eqb col c) eqn:E; simpl; [ | reflexivity ].
      apply String.eqb_eq in E; subst. now rewrite Hp.
    + destruct (String.eqb col c) eqn:E; simpl; [ | reflexivity ].
      apply String.eqb_eq in E; subst. rewrite Hp.
      now rewrite andb_false_r.
Qed.

Lemma isin_columns_In (col : string) (cols : list string) :
  isin_columns col cols = true <-> In col cols.
Proof.
  unfold isin_columns. rewrite existsb_exists. split.
  - intros (c & Hc & E). apply String.eqb_eq in E. now subst.
  - intros H. exists col. split; [ exact H | apply String.eqb_refl ].
Qed.

Lemma length_positions_from (i : nat) (col : string) (cols : list string) :
  List.length (positions_from i col cols)
  = List.length (filter (String.eqb col) cols).
Proof.
  revert i. induction cols as [|c cs IH]; intros i; simpl.
  - reflexivity.
  - destruct (String.eqb col c); simpl; now rewrite IH.
Qed.

Lemma count_label_filter (col : string) (cols : list string) :
  count_label col cols = List.length (filter (String.eqb col) cols).
Proof. apply length_positions_from. Qed.

Lemma count_label_app (col : string) (a b : list string) :
  count_label col (a ++ b) = (count_label col a + count_label col b)%nat.
Proof. rewrite !count_label_filter, filter_app. apply length_app. Qed.

Lemma count_label_const {A : Type} (col l : string) (p : list A) :
  count_label col (map (fun _ => l) p)
  = if String.eqb col l then List.length p else 0%nat.
Proof.
  rewrite count_label_filter. induction p as [|x p IH]; simpl.
  - now destruct (String.eqb col l).
  - destruct (String.eqb col l); simpl; now rewrite IH.
Qed.

Lemma count_label_isin (col : string) (cols : list string) :
  isin_columns col cols = negb (Nat.eqb (count_label col cols) 0).
Proof.
  rewrite index_of_isin, <- positions_head. unfold count_label.
  now destruct (positions col cols).
Qed.

(** Line 51 keeps as many columns under a label as the frame has. *)
Lemma count_label_select (labels : list string) (df : RawFrame)
    (col : string) :
  NoDup labels ->
  count_label col (columns (select labels df))
  = if isin_columns col labels then count_label col (columns df) else 0%nat.
Proof.
  unfold select. cbn [columns]. induction labels as [|l ls IH]; intros Hnd.
  - reflexivity.
  - cbn [flat_map]. rewrite count_label_app, count_label_const.
    inversion Hnd as [|? ? Hl Hls]; subst. rewrite (IH Hls).
    unfold isin_columns at 2. cbn [existsb]. fold (isin_columns col ls).
    destruct (String.eqb col l) eqn:E; cbn [orb].
    + apply String.eqb_eq in E. subst l.
      destruct (isin_columns col ls) eqn:I.
      * apply isin_columns_In in I. contradiction.
      * unfold count_label. lia.
    + reflexivity.
Qed.

Lemma index_of_app_skip (col : string) (a b : list string) :
  (forall c, In c a -> String.eqb col c = false) ->
  index_of col (a ++ b)
  = option_map (Nat.add (List.length a)) (index_of col b).
Proof.
  induction a as [|x a IH]; intros H; simpl.
  - now destruct (index_of col b).
  - rewrite (H x) by now left.
    rewrite IH by (intros c Hc; apply H; now right).
    now destruct (index_of col b).
Qed.

Lemma cell_of_absent (df : RawFrame) (col : string) (r : list cell) :
  isin_columns col (columns df) = false -> cell_of df col r = Empty.
Proof.
  rewrite index_of_isin. unfold cell_of.
  now destruct (index_of col (columns df)).
Qed.

(** Under a label of the list, a row of [df[labels]] has the cell the row
    of [df] has. *)
Lemma cell_of_select (labels : list string) (df : RawFrame) (col : string)
    (r : list cell) :
  cell_of (select labels df) col
          (flat_map (fun l => map (fun i => nth i r Empty)
                                  (positions l (columns df))) labels)
  = if isin_columns col labels then cell_of df col r else Empty.
Proof.
  unfold cell_of at 1, select. cbn [columns].
  induction labels as [|l ls IH].
  - reflexivity.
  - cbn [flat_map]. unfold isin_columns. cbn [existsb].
    fold (isin_columns col ls).
    destruct (String.eqb col l) eqn:E; cbn [orb].
    + apply String.eqb_eq in E. subst l.
      pose proof (positions_head col (columns df)) as H.
      destruct (positions col (columns df)) as [|i js]; cbn [map app].
      * rewrite IH. simpl in H. unfold cell_of. rewrite <- H.
        now destruct (isin_columns col ls).
      * cbn [index_of]. rewrite String.eqb_refl. cbn [nth].
        simpl in H. unfold cell_of. now rewrite <- H.
    + rewrite index_of_app_skip.
      * rewrite <- IH.
        destruct (index_of col
                    (flat_map (fun l0 => map (fun _ => l0)
                                             (positions l0 (columns df))) ls))
          as [j|]; cbn [option_map]; [ | reflexivity ].
        rewrite length_map.
        rewrite <- (length_map (fun i => nth i r Empty)
                      (positions l (columns df))).
        apply app_nth2_plus.
      * intros c Hc. apply in_map_iff in Hc. destruct Hc as (? & <- & _).
        exact E.
Qed.

Lemma NoDup_cols_to_keep : NoDup cols_to_keep.
Proof.
  unfold cols_to_keep.
  repeat (constructor; [ simpl; intuition discriminate | ]). constructor.
Qed.

Lemma count_label_keep_known (df : RawFrame) (col : string) :
  In col cols_to_keep ->
  count_label col (columns (keep_known df)) = count_label col (columns df).
Proof.
  intros Hc. unfold keep_known.
  rewrite count_label_select by (apply NoDup_filter, NoDup_cols_to_keep).
  rewrite isin_filter, (proj2 (isin_columns_In _ _) Hc). cbn [andb].
  rewrite count_label_isin.
  now destruct (count_label col (columns df)).
Qed.

Lemma cell_of_keep_known (df : RawFrame) (col : string) (r : list cell) :
  In col cols_to_keep ->
  cell_of (keep_known df) col
          (flat_map (fun l => map (fun i => nth i r Empty)
                                  (positions l (columns df)))
                    (filter (fun c => isin_columns c (columns df))
                            cols_to_keep))
  = cell_of df col r.
Proof.
  intros Hc. unfold keep_known. rewrite cell_of_select.
  rewrite isin_filter, (proj2 (isin_columns_In _ _) Hc). cbn [andb].
  destruct (isin_columns col (columns df)) eqn:I; [ reflexivity | ].
  symmetry. now apply cell_of_absent.
Qed.

(** The rows of line 51 carry, under every recognised label, the cells of
    the renamed frame. *)
Lemma normalize_row_keep_known (L : Library) (df : RawFrame) :
  map (normalize_row L (keep_known df)) (rows (keep_known df))
  = map (normalize_row L df) (rows df).
Proof.
  unfold keep_known at 2, select. cbn [rows]. rewrite map_map.
  apply map_ext. intros r. unfold normalize_row.
  rewrite !cell_of_keep_known by (unfold cols_to_keep; simpl; tauto).
  reflexivity.
Qed.

Lemma first_some_agree {A B : Type} (f g : A -> option B) (l : list A) :
  (forall x, In x l -> f x = g x) -> first_some f l = first_some g l.
Proof.
  induction l as [|x l IH]; simpl; intros H.
  - reflexivity.
  - rewrite (H x) by now left. destruct (g x); [ reflexivity | ].
    apply IH. intros y Hy. apply H. now right.
Qed.

(** Every label of line 50 is read by lines 53 to 58, and no other is. *)
Lemma reads_cols_to_keep (col : string) :
  In col (map fst reads) <-> In col cols_to_keep.
Proof. unfold reads, cols_to_keep. simpl. tauto. Qed.

Lemma first_error_keep_known (df : RawFrame) :
  first_error (keep_known df) = first_error df.
Proof.
  unfold first_error. apply first_some_agree.
  intros cr Hcr. unfold read_error.
  rewrite count_label_keep_known; [ reflexivity | ].
  apply reads_cols_to_keep. now apply in_map.
Qed.

(** ** What [load_data] returns *)

Lemma normalize_records (L : Library) (raw : RawFrame) :
  normalize L raw
  = match first_error (rename raw) with
    | Some e => Raise e
    | None => Ok (filter is_pago (records L raw),
                  filter is_pendente (records L raw))
    end.
Proof.
  rewrite normalize_eq, first_error_keep_known.
  unfold frame_rows. cbv zeta. rewrite normalize_row_keep_known.
  reflexivity.
Qed.

Lemma read_error_cases (df : RawFrame) (cr : string * reading) (e : exn) :
  read_error df cr = Some e ->
  (count_label (fst cr) (columns df) = 0%nat /\ e = KeyError (fst cr))
  \/ ((2 <= count_label (fst cr) (columns df))%nat
      /\ ((snd cr = AsNumber
           /\ e = TypeError "arg must be a list, tuple, 1-d array, or Series")
          \/ (snd cr = AsDate
              /\ e = ValueError "cannot assemble with duplicate keys"))).
Proof.
  unfold read_error.
  destruct (count_label (fst cr) (columns df)) as [|[|n]].
  - intros H. inversion H. left. auto.
  - discriminate.
  - destruct (snd cr); intros H; inversion H; right; split; auto; lia.
Qed.

Lemma first_some_first {A B : Type} (f : A -> option B) (l : list A) (y : B) :
  first_some f l = Some y ->
  exists pre x post,
    l = pre ++ x :: post /\ f x = Some y
    /\ forall z, In z pre -> f z = None.
Proof.
  induction l as [|a l IH]; simpl; intros H.
  - discriminate.
  - destruct (f a) as [b|] eqn:E.
    + inversion H; subst. exists [], a, l. repeat split; auto.
      intros z [].
    + destruct (IH H) as (pre & x & post & -> & Hx & Hpre).
      exists (a :: pre), x, post. repeat split; auto.
      intros z [<-|Hz]; auto.
Qed.

Lemma first_some_none {A B : Type} (f : A -> option B) (l : list A) :
  first_some f l = None <-> forall x, In x l -> f x = None.
Proof.
  induction l as [|a l IH]; simpl.
  - split; [ intros _ x [] | reflexivity ].
  - destruct (f a) eqn:E.
    + split; [ discriminate | ]. intros H.
      specialize (H a (or_introl eq_refl)). congruence.
    + rewrite IH. split.
      * intros H x [<-|Hx]; auto.
      * intros H x Hx. apply H. now right.
Qed.

(** The handler of line 63 is not the one that catches what lines 49 to
    61 raise. *)
Lemma first_error_caught (df : RawFrame) (e : exn) :
  first_error df = Some e -> e <> FileNotFoundError.
Proof.
  unfold first_error. intros H.
  destruct (first_some_first _ _ _ H) as (pre & cr & post & _ & Hcr & _).
  apply read_error_cases in Hcr.
  destruct Hcr as [[_ ->]|[_ [[_ ->]|[_ ->]]]]; discriminate.
Qed.

Lemma load_data_sheet (L : Library) (wb : Workbook) (sheet_name : string)
    (raw : RawFrame) :
  sheet sheet_name wb = Some raw ->
  load_data L (Some wb) sheet_name
  = match first_error (rename raw) with
    | Some e => NoFrames (LoadFailure e)
    | None => Frames (filter is_pago (records L raw))
                     (filter is_pendente (records L raw))
    end.
Proof.
  intros S. unfold load_data. rewrite S, normalize_records.
  destruct (first_error (rename raw)) as [e|] eqn:E; [ | reflexivity ].
  apply first_error_caught in E. now destruct e.
Qed.

Lemma load_data_frames (L : Library) (file : option Workbook)
    (sheet_name : string) (p q : DataFrame) :
  load_data L file sheet_name = Frames p q ->
  exists wb raw,
    file = Some wb /\ sheet sheet_name wb = Some raw
    /\ first_error (rename raw) = None
    /\ p = filter is_pago (records L raw)
    /\ q = filter is_pendente (records L raw).
Proof.
  destruct file as [wb|]; [ | discriminate ].
  destruct (sheet sheet_name wb) as [raw|] eqn:S.
  - rewrite (load_data_sheet L wb sheet_name raw S).
    destruct (first_error (rename raw)) eqn:E; [ discriminate | ].
    intros H. inversion H; subst. exists wb, raw. repeat split; auto.
  - unfold load_data. rewrite S. discriminate.
Qed.

Lemma load_data_record (L : Library) (file : option Workbook)
    (sheet_name : string) (p q : DataFrame) (r : Invoice) :
  load_data L file sheet_name = Frames p q ->
  In r (p ++ q) ->
  exists wb raw row,
    file = Some wb /\ sheet sheet_name wb = Some raw
    /\ In row (rows raw) /\ r = normalize_row L (rename raw) row.
Proof.
  intros H Hr.
  destruct (load_data_frames L file sheet_name p q H)
    as (wb & raw & -> & S & _ & -> & ->).
  assert (Hin : In r (records L raw)).
  { apply in_app_or in Hr. destruct Hr as [Hr|Hr];
      apply filter_In in Hr; tauto. }
  unfold records in Hin. apply in_map_iff in Hin.
  destruct Hin as (row & <- & Hrow).
  exists wb, raw, row. auto.
Qed.

Lemma example_load :
  load_data plain_library (Some example_workbook) "Faturas"
  = Frames [paid_invoice] [pending_invoice].
Proof. vm_compute. reflexivity. Qed.

(** ** C1: the total paid *)

(** C1. For every record of the frames [load_data] returns, the derived
    column [valor_total_pago] is the floating-point sum
    [valor_principal_rs + iof + tx_contrato + irrf + cide], added from the
    left as line 60 writes it. *)
Theorem total_paid_is_sum (L : Library) (file : option Workbook)
    (sheet_name : string) (df_pago df_pendente : DataFrame) (r : Invoice) :
  load_data L file sheet_name = Frames df_pago df_pendente ->
  In r (df_pago ++ df_pendente) ->
  valor_total_pago r
  = PrimFloat.add
      (PrimFloat.add
         (PrimFloat.add (PrimFloat.add (valor_principal_rs r) (iof r))
                        (tx_contrato r))
         (irrf r))
      (cide r).
Proof.
  intros H Hr.
  destruct (load_data_record L file sheet_name _ _ r H Hr)
    as (wb & raw & row & _ & _ & _ & ->).
  reflexivity.
Qed.

Lemma total_paid_is_sum_witness :
  load_data plain_library (Some example_workbook) "Faturas"
  = Frames [paid_invoice] [pending_invoice]
  /\ In paid_invoice ([paid_invoice] ++ [pending_invoice])
  /\ valor_total_pago paid_invoice
     = PrimFloat.add
         (PrimFloat.add
            (PrimFloat.add
               (PrimFloat.add (valor_principal_rs paid_invoice)
                              (iof paid_invoice))
               (tx_contrato paid_invoice))
            (irrf paid_invoice))
         (cide paid_invoice).
Proof.
  split; [ exact example_load | ].
  split; [ simpl; auto | ].
  apply (total_paid_is_sum plain_library (Some example_workbook) "Faturas"
           [paid_invoice] [pending_invoice] paid_invoice).
  - exact example_load.
  - simpl. auto.
Defined.

(** ** C2: the status *)

Lemma status_of_row (L : Library) (df : RawFrame) (row : list cell) :
  status (normalize_row L df row)
  = if notna (data_pagamento (normalize_row L df row))
    then "Pago" else "Pendente".
Proof. reflexivity. Qed.

(** C2. For every record of the frames [load_data] returns, the status is
    "Pago" exactly when the payment date is present and "Pendente" exactly
    when it is absent (NaT), so every record has one of the two statuses
    and not both; the payment date is what [pd.to_datetime] makes of the
    record's cell in the sheet. *)
Theorem status_iff_payment_date (L : Library) (file : option Workbook)
    (sheet_name : string) (df_pago df_pendente : DataFrame) (r : Invoice) :
  load_data L file sheet_name = Frames df_pago df_pendente ->
  In r (df_pago ++ df_pendente) ->
  (status r = "Pago" <-> exists t, data_pagamento r = Some t)
  /\ (status r = "Pendente" <-> data_pagamento r = None)
  /\ (status r = "Pago" \/ status r = "Pendente")
  /\ ~ (status r = "Pago" /\ status r = "Pendente")
  /\ exists wb raw row,
       file = Some wb /\ sheet sheet_name wb = Some raw
       /\ In row (rows raw)
       /\ data_pagamento r
          = to_datetime L (cell_of (rename raw) "data_pagamento" row).
Proof.
  intros H Hr.
  destruct (load_data_record L file sheet_name _ _ r H Hr)
    as (wb & raw & row & Hf & Hs & Hrow & ->).
  rewrite status_of_row.
  set (r := normalize_row L (rename raw) row).
  destruct (data_pagamento r) as [t|] eqn:E; cbn [notna].
  - repeat split; try discriminate; eauto.
    + intros [_ K]. discriminate K.
    + exists wb, raw, row. repeat split; auto.
  - repeat split; try discriminate; eauto.
    + intros [t K]. discriminate K.
    + intros [K _]. discriminate K.
    + exists wb, raw, row. repeat split; auto.
Qed.

Lemma status_iff_payment_date_witness :
  load_data plain_library (Some example_workbook) "Faturas"
  = Frames [paid_invoice] [pending_invoice]
  /\ In pending_invoice ([paid_invoice] ++ [pending_invoice])
  /\ (status pending_invoice = "Pago"
      <-> exists t, data_pagamento pending_invoice = Some t)
  /\ (status pending_invoice = "Pendente"
      <-> data_pagamento pending_invoice = None)
  /\ (status pending_invoice = "Pago" \/ status pending_invoice = "Pendente")
  /\ ~ (status pending_invoice = "Pago"
        /\ status pending_invoice = "Pendente")
  /\ exists wb raw row,
       Some example_workbook = Some wb /\ sheet "Faturas" wb = Some raw
       /\ In row (rows raw)
       /\ data_pagamento pending_invoice
          = to_datetime plain_library
              (cell_of (rename raw) "data_pagamento" row).
Proof.
  split; [ exact example_load | ].
  split; [ simpl; auto | ].
  apply (status_iff_payment_date plain_library (Some example_workbook)
           "Faturas" [paid_invoice] [pending_invoice] pending_invoice).
  - exact example_load.
  - simpl. auto.
Defined.

(** ** C3: the split *)

Lemma filter_subsequence {A : Type} (f : A -> bool) (l : list A) :
  Subsequence (filter f l) l.
Proof.
  induction l as [|x l IH]; simpl.
  - constructor.
  - destruct (f x); now constructor.
Qed.

Lemma split_permutation {A : Type} (f g : A -> bool) (l : list A) :
  (forall x, In x l -> g x = negb (f x)) ->
  Permutation (filter f l ++ filter g l) l.
Proof.
  induction l as [|x l IH]; simpl; intros H.
  - constructor.
  - rewrite (H x) by now left.
    assert (IH' : Permutation (filter f l ++ filter g l) l).
    { apply IH. intros y Hy. apply H. now right. }
    destruct (f x); simpl.
    + now constructor.
    + apply Permutation_sym. apply Permutation_cons_app.
      now apply Permutation_sym.
Qed.

Lemma pendente_not_pago (L : Library) (df : RawFrame) (row : list cell) :
  is_pendente (normalize_row L df row)
  = negb (is_pago (normalize_row L df row)).
Proof.
  unfold is_pendente, is_pago. rewrite status_of_row.
  now destruct (notna _).
Qed.

(** C3. The two frames [load_data] returns are the rows of the normalised
    frame with status "Pago" and with status "Pendente", each in the order
    of the frame (and so of the sheet); together they are a rearrangement
    of the frame, no record is in both, and their lengths add up to the
    number of rows of the sheet. *)
Theorem split_paid_pending (L : Library) (wb : Workbook)
    (sheet_name : string) (raw : RawFrame) (df_pago df_pendente : DataFrame) :
  sheet sheet_name wb = Some raw ->
  load_data L (Some wb) sheet_name = Frames df_pago df_pendente ->
  let df := records L raw in
  df_pago = filter (fun r => String.eqb (status r) "Pago") df
  /\ df_pendente = filter (fun r => String.eqb (status r) "Pendente") df
  /\ Subsequence df_pago df /\ Subsequence df_pendente df
  /\ Permutation (df_pago ++ df_pendente) df
  /\ (forall r, ~ (In r df_pago /\ In r df_pendente))
  /\ (List.length df_pago + List.length df_pendente = List.length df)%nat
  /\ List.length df = List.length (rows raw).
Proof.
  intros S H df.
  destruct (load_data_frames L _ _ _ _ H)
    as (wb' & raw' & Hwb & S' & _ & -> & ->).
  inversion Hwb; subst wb'. rewrite S in S'. inversion S'; subst raw'.
  fold df. fold is_pago. fold is_pendente.
  assert (P : Permutation (filter is_pago df ++ filter is_pendente df) df).
  { apply split_permutation. intros r Hr. unfold df, records in Hr.
    apply in_map_iff in Hr. destruct Hr as (row & <- & _).
    apply pendente_not_pago. }
  repeat split.
  - apply filter_subsequence.
  - apply filter_subsequence.
  - exact P.
  - intros r [Hp Hq]. apply filter_In in Hp, Hq.
    destruct Hp as [_ Hp], Hq as [_ Hq].
    unfold is_pago in Hp. unfold is_pendente in Hq.
    apply String.eqb_eq in Hp, Hq. rewrite Hp in Hq. discriminate.
  - rewrite <- length_app. now apply Permutation_length.
  - unfold df, records. apply length_map.
Qed.

Lemma split_paid_pending_witness :
  sheet "Faturas" example_workbook
  = Some (mkRaw example_headers [paid_row; pending_row])
  /\ load_data plain_library (Some example_workbook) "Faturas"
     = Frames [paid_invoice] [pending_invoice]
  /\ let df :=
       records plain_library (mkRaw example_headers [paid_row; pending_row]) in
     [paid_invoice] = filter (fun r => String.eqb (status r) "Pago") df
     /\ [pending_invoice]
        = filter (fun r => String.eqb (status r) "Pendente") df
     /\ Subsequence [paid_invoice] df /\ Subsequence [pending_invoice] df
     /\ Permutation ([paid_invoice] ++ [pending_invoice]) df
     /\ (forall r, ~ (In r [paid_invoice] /\ In r [pending_invoice]))
     /\ (List.length [paid_invoice] + List.length [pending_invoice]
         = List.length df)%nat
     /\ List.length df
        = List.length (rows (mkRaw example_headers [paid_row; pending_row])).
Proof.
  split; [ reflexivity | ].
  split; [ exact example_load | ].
  apply (split_paid_pending plain_library example_workbook "Faturas"
           (mkRaw example_headers [paid_row; pending_row])
           [paid_invoice] [pending_invoice]).
  - reflexivity.
  - exact example_load.
Defined.

(** ** C4: absent columns *)

Lemma count_label_rename (raw : RawFrame) (col : string) :
  isin_columns col (map rename_label (columns raw))
  = negb (Nat.eqb (count_label col (columns (rename raw))) 0).
Proof. apply count_label_isin. Qed.

(** A recognised column that the sheet lacks makes the load fail, for all
    that line 51 tolerates its absence: with the KeyError of that column,
    unless a column read before it has already made the load fail. *)
Lemma absent_column_fails (L : Library) (wb : Workbook) (sheet_name : string)
    (raw : RawFrame) (col : string) :
  sheet sheet_name wb = Some raw ->
  In col cols_to_keep ->
  isin_columns col (map rename_label (columns raw)) = false ->
  exists e, load_data L (Some wb) sheet_name = NoFrames (LoadFailure e).
Proof.
  intros S Hc Habs. rewrite (load_data_sheet L wb sheet_name raw S).
  destruct (first_error (rename raw)) as [e|] eqn:E.
  - exists e. reflexivity.
  - exfalso. unfold first_error in E.
    apply reads_cols_to_keep, in_map_iff in Hc.
    destruct Hc as (cr & <- & Hcr).
    pose proof (proj1 (first_some_none _ _) E cr Hcr) as K.
    rewrite count_label_rename in Habs. unfold read_error in K.
    destruct (count_label (fst cr) (columns (rename raw)));
      discriminate.
Qed.

(** With every recognised column in the sheet, the numeric ones and the
    date under one header each, the load returns its two frames: no cell,
    whatever it holds, makes a coercion raise. *)
Lemma present_columns_load (L : Library) (wb : Workbook) (sheet_name : string)
    (raw : RawFrame) :
  sheet sheet_name wb = Some raw ->
  (forall col, In col cols_to_keep ->
     isin_columns col (map rename_label (columns raw)) = true) ->
  (forall col, In col numeric_cols \/ col = "data_pagamento" ->
     count_label col (map rename_label (columns raw)) = 1%nat) ->
  load_data L (Some wb) sheet_name
  = Frames (filter is_pago (records L raw))
           (filter is_pendente (records L raw)).
Proof.
  intros S Hall Hone. rewrite (load_data_sheet L wb sheet_name raw S).
  destruct (first_error (rename raw)) as [e|] eqn:E; [ | reflexivity ].
  exfalso. unfold first_error in E.
  destruct (first_some_first _ _ _ E) as (pre & cr & post & Hreads & Hcr & _).
  assert (Hin : In cr reads) by (rewrite Hreads; apply in_elt).
  apply read_error_cases in Hcr.
  destruct Hcr as [[Hz _]|[Htwo Hk]].
  - assert (Hk : In (fst cr) cols_to_keep)
      by (apply reads_cols_to_keep; now apply in_map).
    specialize (Hall _ Hk). rewrite count_label_rename, Hz in Hall.
    discriminate.
  - assert (K : In (fst cr) numeric_cols \/ fst cr = "data_pagamento").
    { unfold reads in Hin. unfold numeric_cols. simpl in Hin.
      repeat (destruct Hin as [<-|Hin];
              [ simpl; try tauto;
                destruct Hk as [[Hk _]|[Hk _]]; discriminate Hk | ]).
      contradiction. }
    specialize (Hone _ K). unfold rename in Htwo. cbn [columns] in Htwo.
    lia.
Qed.

(** C4. On a sheet that has every recognised column but IOF, [load_data]
    does not omit the column: line 53 reads [df['iof']], the KeyError is
    caught by the handler of line 65 and the load returns [(None, None)]. *)
Theorem absent_iof_column_is_load_failure :
  load_data plain_library (Some workbook_without_iof) "Faturas"
  = NoFrames (LoadFailure (KeyError "iof")).
Proof. vm_compute. reflexivity. Qed.

(** ** C5: the amounts *)







(** ** C6: the date filter *)

Lemma between_iff (left right : Z) (d : option Z) :
  between left right d = true
  <-> exists t, d = Some t /\ (left <= t <= right)%Z.
Proof.
  unfold between. destruct d as [t|].
  - rewrite andb_true_iff, !Z.leb_le. split.
    + intros H. exists t. split; [ reflexivity | lia ].
    + intros (t' & E & H). inversion E; subst. lia.
  - split; [ discriminate | ]. intros (t & E & _). discriminate.
Qed.

(** With a date range of two dates, the pending frame comes out as it
    would with no date range at all, and a paid record is kept exactly
    when it passes the two selections and its timestamp lies between the
    two bounds the filter computes. *)
Lemma date_filter_on_timestamps (s : Selection) (v : Vars)
    (start_date end_date : Z) :
  date_range s = [start_date; end_date] ->
  df_pendente_filtered (apply_filters s v)
  = df_pendente_filtered
      (apply_filters
         (mkSelection [] (selected_correspondentes s) (selected_rms s)) v)
  /\ (forall r,
        In r (df_pago_filtered (apply_filters s v))
        <-> In r (df_pago_original v)
            /\ selected s r = true
            /\ exists t, data_pagamento r = Some t
                 /\ (timestamp_of_date start_date <= t
                     <= timestamp_of_date end_date)%Z).
Proof.
  intros Hd. split; [ reflexivity | ].
  intros r. unfold apply_filters. cbn [df_pago_filtered].
  unfold filter_dates. rewrite Hd.
  rewrite !filter_In, between_iff. tauto.
Qed.

(** Between the midnights of two dates: on a day from the first up to the
    eve of the second, or at the midnight that begins the second. *)
Lemma between_midnights (d0 d1 t : Z) :
  (timestamp_of_date d0 <= t <= timestamp_of_date d1)%Z
  <-> (d0 <= t / ns_per_day)%Z
      /\ ((t / ns_per_day < d1)%Z
          \/ ((t / ns_per_day = d1)%Z /\ (t mod ns_per_day = 0)%Z)).
Proof.
  unfold timestamp_of_date.
  assert (P : (0 < ns_per_day)%Z) by reflexivity.
  pose proof (Z.div_mod t ns_per_day) as E.
  pose proof (Z.mod_pos_bound t ns_per_day P) as B.
  set (q := (t / ns_per_day)%Z) in *. set (m := (t mod ns_per_day)%Z) in *.
  assert (E' : t = (ns_per_day * q + m)%Z) by (apply E; lia).
  clearbody q m. unfold ns_per_day in *. lia.
Qed.

(** C6. With a date range of two dates, the pending frame comes out as it
    would with no date range at all.  A paid record is kept exactly when
    it passes the two selections and was paid on a day from the start date
    up to the eve of the end date, or at the very midnight that begins the
    end date: a payment stamped later on the end date is dropped, where
    the claim has the end date included. *)
Theorem date_filter_ends_at_midnight (s : Selection) (v : Vars)
    (start_date end_date : Z) :
  date_range s = [start_date; end_date] ->
  df_pendente_filtered (apply_filters s v)
  = df_pendente_filtered
      (apply_filters
         (mkSelection [] (selected_correspondentes s) (selected_rms s)) v)
  /\ (forall r,
        In r (df_pago_filtered (apply_filters s v))
        <-> In r (df_pago_original v)
            /\ selected s r = true
            /\ exists t, data_pagamento r = Some t
                 /\ (start_date <= t / ns_per_day)%Z
                 /\ ((t / ns_per_day < end_date)%Z
                     \/ ((t / ns_per_day = end_date)%Z
                         /\ (t mod ns_per_day = 0)%Z)))
  /\ (forall r t,
        data_pagamento r = Some t ->
        (t / ns_per_day = end_date)%Z ->
        (t mod ns_per_day <> 0)%Z ->
        ~ In r (df_pago_filtered (apply_filters s v))).
Proof.
  intros Hd.
  destruct (date_filter_on_timestamps s v start_date end_date Hd) as [P D].
  assert (K : forall r,
            In r (df_pago_filtered (apply_filters s v))
            <-> In r (df_pago_original v)
                /\ selected s r = true
                /\ exists t, data_pagamento r = Some t
                     /\ (start_date <= t / ns_per_day)%Z
                     /\ ((t / ns_per_day < end_date)%Z
                         \/ ((t / ns_per_day = end_date)%Z
                             /\ (t mod ns_per_day = 0)%Z))).
  { intros r. rewrite D. split.
    - intros (Hin & Hsel & t & Ht & Hb). repeat split; auto.
      exists t. split; [ exact Ht | ]. now apply between_midnights.
    - intros (Hin & Hsel & t & Ht & Hb). repeat split; auto.
      exists t. split; [ exact Ht | ]. now apply between_midnights. }
  split; [ exact P | ]. split; [ exact K | ].
  intros r t Ht Hday Hnoon Hin. apply K in Hin.
  destruct Hin as (_ & _ & t' & Ht' & _ & Hb).
  rewrite Ht in Ht'. inversion Ht'; subst t'. lia.
Qed.

Lemma date_filter_ends_at_midnight_witness :
  date_range january = [jan01; jan31]
  /\ df_pendente_filtered (apply_filters january noon_vars)
     = df_pendente_filtered
         (apply_filters
            (mkSelection [] (selected_correspondentes january)
                         (selected_rms january)) noon_vars)
  /\ (forall r,
        In r (df_pago_filtered (apply_filters january noon_vars))
        <-> In r (df_pago_original noon_vars)
            /\ selected january r = true
            /\ exists t, data_pagamento r = Some t
                 /\ (jan01 <= t / ns_per_day)%Z
                 /\ ((t / ns_per_day < jan31)%Z
                     \/ ((t / ns_per_day = jan31)%Z
                         /\ (t mod ns_per_day = 0)%Z)))
  /\ (forall r t,
        data_pagamento r = Some t ->
        (t / ns_per_day = jan31)%Z ->
        (t mod ns_per_day <> 0)%Z ->
        ~ In r (df_pago_filtered (apply_filters january noon_vars))).
Proof.
  split; [ reflexivity | ].
  apply (date_filter_ends_at_midnight january noon_vars jan01 jan31).
  reflexivity.
Defined.

(** With the range 1 to 31 January, of two records paid on 31 January the
    one stamped at midnight is kept and the one stamped at noon is
    dropped. *)
Example noon_payment_is_dropped :
  date (data_pagamento paid_at_noon) = Some jan31
  /\ In paid_at_noon (df_pago_original noon_vars)
  /\ selected january paid_at_noon = true
  /\ df_pago_filtered (apply_filters january noon_vars)
     = [paid_on jan31 "ND-31"].
Proof.
  split; [ vm_compute; reflexivity | ].
  split; [ simpl; auto | ].
  split; vm_compute; reflexivity.
Qed.

(** The scenario of the specification: with the range 1 to 31 January the
    record paid on 31 January is kept, the one paid on 1 February is not,
    and the pending record stays. *)
Example january_filter :
  df_pago_filtered (apply_filters january example_vars)
  = [paid_on jan31 "ND-31"]
  /\ df_pendente_filtered (apply_filters january example_vars)
     = [pending_invoice].
Proof. vm_compute. split; reflexivity. Qed.

(** ** C7: empty selections *)

Lemma filter_none {A : Type} (f : A -> bool) (l : list A) :
  (forall x, f x = false) -> filter f l = [].
Proof.
  intros H. induction l as [|x l IH]; simpl.
  - reflexivity.
  - now rewrite H.
Qed.

(** C7. With an empty selection of counterparties, or an empty selection
    of reference numbers, both filtered frames are empty. *)
Theorem empty_selection_shows_nothing (s : Selection) (v : Vars) :
  selected_correspondentes s = [] \/ selected_rms s = [] ->
  df_pago_filtered (apply_filters s v) = []
  /\ df_pendente_filtered (apply_filters s v) = [].
Proof.
  intros H.
  assert (N : forall r, selected s r = false).
  { intros r. unfold selected, isin.
    destruct H as [-> | ->]; simpl; [ reflexivity | apply andb_false_r ]. }
  unfold apply_filters. cbn [df_pago_filtered df_pendente_filtered].
  split; apply filter_none; exact N.
Qed.

Lemma empty_selection_shows_nothing_witness :
  (selected_correspondentes no_counterparty = []
   \/ selected_rms no_counterparty = [])
  /\ df_pago_filtered (apply_filters no_counterparty example_vars) = []
  /\ df_pendente_filtered (apply_filters no_counterparty example_vars) = [].
Proof.
  split; [ left; reflexivity | ].
  apply (empty_selection_shows_nothing no_counterparty example_vars).
  left. reflexivity.
Defined.

(** ** C8: filtering twice *)

Lemma filter_idempotent {A : Type} (f : A -> bool) (l : list A) :
  filter f (filter f l) = filter f l.
Proof.
  induction l as [|x l IH]; simpl.
  - reflexivity.
  - destruct (f x) eqn:E; simpl; [ rewrite E, IH | ]; auto.
Qed.

Lemma filter_commute {A : Type} (f g : A -> bool) (l : list A) :
  filter f (filter g l) = filter g (filter f l).
Proof.
  induction l as [|x l IH]; simpl.
  - reflexivity.
  - destruct (g x) eqn:G, (f x) eqn:F; simpl; rewrite ?G, ?F, IH; auto.
Qed.

Lemma filter_dates_as_filter (s : Selection) :
  exists f, forall df, filter_dates s df = filter f df.
Proof.
  unfold filter_dates.
  destruct (date_range s) as [|d0 [|d1 [|d2 ds]]].
  - exists (fun _ => true). intros df. induction df; simpl; congruence.
  - exists (fun _ => true). intros df. induction df; simpl; congruence.
  - eexists. intros df. reflexivity.
  - exists (fun _ => true). intros df. induction df; simpl; congruence.
Qed.

(** C8. Filtering the output of the filter with the same selection gives
    that output again, for both frames, and a pass of the filter leaves
    the two original frames as they were. *)
Theorem filter_twice_is_filter_once (s : Selection) (v : Vars) :
  df_pago_filtered (refilter s (apply_filters s v))
  = df_pago_filtered (apply_filters s v)
  /\ df_pendente_filtered (refilter s (apply_filters s v))
     = df_pendente_filtered (apply_filters s v)
  /\ df_pago_original (apply_filters s v) = df_pago_original v
  /\ df_pendente_original (apply_filters s v) = df_pendente_original v.
Proof.
  unfold refilter, apply_filters.
  cbn [df_pago_filtered df_pendente_filtered df_pago_original
       df_pendente_original].
  destruct (filter_dates_as_filter s) as [f Hf].
  repeat split.
  - rewrite !Hf.
    rewrite (filter_commute f (selected s)).
    rewrite !filter_idempotent. reflexivity.
  - apply filter_idempotent.
Qed.

(** ** C9: empty frames *)

(** What holds of the claim.  On an empty paid frame the overview gives a
    total of zero, "N/A" for the largest invoice, the reference number and
    the counterparty, and no chart; the counterparty page gives no ranking
    on an empty paid frame and no pending table on an empty pending frame,
    whatever the other frame holds; with both frames empty the page by RM
    gives nothing, or an empty table with no chart.  The page by RM with
    one frame empty is taken up with the page itself, further down. *)
Lemma pages_on_empty_frames (L : Library) (show_all : bool)
    (multiselect : list string -> list string -> list string)
    (df_pago df_pendente : DataFrame) :
  kpis L [] = Ok (mkKpis 0%float None "N/A" (Text "N/A") [] [])
  /\ display_visao_geral L show_all []
     = Ok (mkOverview (empty_metrics L) None None)
  /\ (exists c, display_correspondentes L [] df_pendente = Ok c
                /\ ranking c = None /\ ranking_raw c = None)
  /\ (exists c, display_correspondentes L df_pago [] = Ok c
                /\ pendencias c = None)
  /\ display_correspondentes L [] [] = Ok (mkCorrespondentes None None None)
  /\ (display_rm_detalhado L multiselect [] [] = Ok None
      \/ display_rm_detalhado L multiselect [] []
         = Ok (Some (mkRmDetalhado None []))).
Proof.
  split; [ reflexivity | ].
  split; [ reflexivity | ].
  split; [ eexists; repeat split | ].
  split; [ eexists; repeat split | ].
  split; [ reflexivity | ].
  unfold display_rm_detalhado, st_multiselect.
  cbn [app map unique sorted_strings filter traverse bind forallb].
  destruct (multiselect [] []) as [|x l]; cbn [empty negb filter map].
  - left. reflexivity.
  - right. reflexivity.
Qed.

(** ** C10: no paid record *)

Lemma pending_load :
  load_data plain_library (Some pending_workbook) "Faturas"
  = Frames [] [pending_invoice].
Proof. vm_compute. reflexivity. Qed.

(** C10. After a load that succeeds with no paid record, whatever the
    widgets and the page, the render cycle fails: nothing guards the empty
    paid frame, the bounds of line 173 are both NaT, and the date widget
    of line 174 raises on them. *)
Theorem no_paid_record_fails_the_cycle (L : Library) (W : Widgets)
    (file : option Workbook) (sheet_name : string) (df_pendente : DataFrame) :
  load_data L file sheet_name = Frames [] df_pendente ->
  date_bounds [] = (None, None)
  /\ script L W file sheet_name = Raise nat_error.
Proof.
  intros Hload. split; [ reflexivity | ].
  unfold script. rewrite Hload. reflexivity.
Qed.

Lemma no_paid_record_fails_the_cycle_witness :
  load_data plain_library (Some pending_workbook) "Faturas"
  = Frames [] [pending_invoice]
  /\ date_bounds [] = (None, None)
  /\ script plain_library strict_widgets (Some pending_workbook) "Faturas"
     = Raise nat_error.
Proof.
  split; [ exact pending_load | ].
  apply (no_paid_record_fails_the_cycle plain_library strict_widgets
           (Some pending_workbook) "Faturas" [pending_invoice]).
  exact pending_load.
Defined.

(** ** Scenarios *)

(** Two invoices of 100 and 200 paid to Acme and one of 50 paid to Beta:
    a total of 350, the invoice of 200 as the largest, and Acme before
    Beta in the ranking. *)
Example ranking_scenario :
  fmap (fun k => (valor_total_geral_pago k,
                  option_map nd_recebida (maior_fatura_row k),
                  corr_maior_pago k, corr_maior_pago_group k))
       (kpis plain_library three_paid)
  = Ok (350%float, Some "ND-3", Text "Acme",
        [(Text "Acme", 300%float); (Text "Beta", 50%float)])
  /\ fmap ranking_raw (display_correspondentes plain_library three_paid [])
     = Ok (Some [(Text "Acme", 300%float); (Text "Beta", 50%float)]).
Proof. vm_compute. split; reflexivity. Qed.

(** The bounds of the date filter are midnights: a payment stamped at noon
    of the end date lies after the upper bound. *)
Example noon_of_end_date :
  between (timestamp_of_date jan01) (timestamp_of_date jan31)
          (Some (timestamp_of_date jan31)) = true
  /\ between (timestamp_of_date jan01) (timestamp_of_date jan31)
             (Some jan31_noon) = false.
Proof. vm_compute. split; reflexivity. Qed.

(** With a paid record in the sheet the same widgets render the overview. *)
Example cycle_with_a_paid_record :
  exists o,
    script plain_library strict_widgets (Some example_workbook) "Faturas"
    = Ok (ShowVisaoGeral o).
Proof. eexists. vm_compute. reflexivity. Qed.

(** * Further properties *)

(** ** Formatting *)

Lemma replace_chain_swaps (s : string) :
  has_char "X"%char s = false ->
  replace_char "X"%char "."%char
    (replace_char "."%char ","%char (replace_char ","%char "X"%char s))
  = swap_separators s.
Proof.
  induction s as [|c s IH]; simpl; intros H.
  - reflexivity.
  - apply orb_false_iff in H. destruct H as [Hc Hs].
    rewrite (IH Hs). f_equal.
    destruct (Ascii.eqb c ","%char) eqn:E1.
    + reflexivity.
    + destruct (Ascii.eqb c "."%char) eqn:E2.
      * reflexivity.
      * rewrite Hc. reflexivity.
Qed.

(** X1. As long as Python's grouped two-decimal format of the value holds
    no "X" (the letter the replace chain of line 26 uses as a placeholder),
    [format_currency] gives "R$ 0,00" for NaN and otherwise "R$ " followed
    by that format with its commas and points exchanged. *)
Theorem format_currency_swaps_separators (L : Library) (value : float) :
  has_char "X"%char (format_2f L value) = false ->
  format_currency L value
  = if isna value then "R$ 0,00"
    else String.append "R$ " (swap_separators (format_2f L value)).
Proof.
  intros H. unfold format_currency. destruct (isna value).
  - reflexivity.
  - now rewrite replace_chain_swaps.
Qed.

Lemma format_currency_swaps_separators_witness :
  has_char "X"%char (format_2f grouping_library 1234.5%float) = false
  /\ format_currency grouping_library 1234.5%float = "R$ 1.234,50".
Proof.
  split; [ reflexivity | ].
  exact (format_currency_swaps_separators grouping_library 1234.5%float
           eq_refl).
Defined.

(** ** The outcomes of the load *)

Lemma sheet_none (name : string) (wb : Workbook) :
  sheet name wb = None <-> ~ In name (map fst wb).
Proof.
  induction wb as [|[n df] wb IH]; simpl.
  - tauto.
  - destruct (String.eqb name n) eqn:E.
    + apply String.eqb_eq in E. subst. split; [ discriminate | ].
      intros H. exfalso. apply H. now left.
    + apply String.eqb_neq in E. rewrite IH. split.
      * intros H [K|K]; [ now subst | tauto ].
      * intros H K. apply H. now right.
Qed.

Lemma read_error_none (df : RawFrame) (cr : string * reading) :
  read_error df cr = None ->
  (1 <= count_label (fst cr) (columns df))%nat
  /\ (snd cr = AsObject \/ count_label (fst cr) (columns df) = 1%nat).
Proof.
  unfold read_error.
  destruct (count_label (fst cr) (columns df)) as [|[|n]].
  - discriminate.
  - intros _. split; [ lia | now right ].
  - destruct (snd cr); try discriminate. intros _. split; [ lia | now left ].
Qed.

Lemma reads_how (col : string) :
  In col numeric_cols \/ col = "data_pagamento" ->
  exists how, In (col, how) reads /\ how <> AsObject.
Proof.
  unfold numeric_cols, reads. simpl. intros [H | ->].
  - repeat (destruct H as [<-|H];
            [ exists AsNumber; split; [ tauto | discriminate ] | ]).
    contradiction.
  - exists AsDate. split; [ tauto | discriminate ].
Qed.

(** X2. What [load_data] returns of a workbook that opens and reads tells
    what it met: the two frames only for a file that exists, with the
    sheet, holding every recognised column, the numeric ones and the date
    under one header each; the message of line 63 only for a missing file;
    the message of line 40, listing the workbook's sheets, only for a sheet
    that is not among them; and otherwise the exception of the first
    column, in the order lines 53 to 58 read them, that fails: a KeyError
    naming it when the sheet lacks it, and, when two headers are renamed to
    it, the TypeError of [pd.to_numeric] for a numeric column and the
    ValueError of [pd.to_datetime] for the date. *)
Theorem load_data_outcome (L : Library) (file : option Workbook)
    (sheet_name : string) :
  match load_data L file sheet_name with
  | Frames df_pago df_pendente =>
      exists wb raw,
        file = Some wb /\ sheet sheet_name wb = Some raw
        /\ (forall col, In col cols_to_keep ->
              (1 <= count_label col (map rename_label (columns raw)))%nat)
        /\ (forall col, In col numeric_cols \/ col = "data_pagamento" ->
              count_label col (map rename_label (columns raw)) = 1%nat)
  | NoFrames FileNotFound => file = None
  | NoFrames (SheetNotFound name sheetnames) =>
      exists wb,
        file = Some wb /\ name = sheet_name /\ sheetnames = map fst wb
        /\ ~ In sheet_name sheetnames
  | NoFrames (LoadFailure e) =>
      exists wb raw before col how after,
        file = Some wb /\ sheet sheet_name wb = Some raw
        /\ reads = before ++ (col, how) :: after
        /\ (forall c h, In (c, h) before ->
              (1 <= count_label c (map rename_label (columns raw)))%nat
              /\ (h = AsObject
                  \/ count_label c (map rename_label (columns raw)) = 1%nat))
        /\ ((count_label col (map rename_label (columns raw)) = 0%nat
             /\ e = KeyError col)
            \/ ((2 <= count_label col (map rename_label (columns raw)))%nat
                /\ ((how = AsNumber
                     /\ e = TypeError
                             "arg must be a list, tuple, 1-d array, or Series")
                    \/ (how = AsDate
                        /\ e = ValueError
                                "cannot assemble with duplicate keys"))))
  end.
Proof.
  destruct file as [wb|]; [ | reflexivity ].
  destruct (sheet sheet_name wb) as [raw|] eqn:S.
  - rewrite (load_data_sheet L wb sheet_name raw S).
    destruct (first_error (rename raw)) as [e|] eqn:E; unfold first_error in E.
    + destruct (first_some_first _ _ _ E)
        as (pre & [col how] & post & Hreads & Hcr & Hpre).
      exists wb, raw, pre, col, how, post.
      split; [ reflexivity | ]. split; [ exact S | ].
      split; [ exact Hreads | ]. split.
      * intros c h Hc. exact (read_error_none _ _ (Hpre _ Hc)).
      * exact (read_error_cases _ _ _ Hcr).
    + pose proof (proj1 (first_some_none _ _) E) as N.
      exists wb, raw. split; [ reflexivity | ]. split; [ exact S | ]. split.
      * intros col Hc. apply reads_cols_to_keep, in_map_iff in Hc.
        destruct Hc as (cr & <- & Hcr).
        exact (proj1 (read_error_none _ _ (N cr Hcr))).
      * intros col Hc. destruct (reads_how col Hc) as (how & Hin & Hno).
        destruct (read_error_none _ _ (N _ Hin)) as [_ [K|K]];
          [ contradiction | exact K ].
  - unfold load_data. rewrite S.
    exists wb. repeat split; auto. now apply sheet_none.
Qed.

(** Two headers of one recognised name: with a column IOF and a column
    iof the load fails at line 53 with the TypeError of [pd.to_numeric]. *)
Example two_headers_of_one_name :
  load_data plain_library
    (Some [ ("Faturas",
             mkRaw (example_headers ++ ["iof"]) [paid_row ++ [Number 1%float]]) ])
    "Faturas"
  = NoFrames (LoadFailure
                (TypeError "arg must be a list, tuple, 1-d array, or Series")).
Proof. vm_compute. reflexivity. Qed.

(** ** Renaming *)

Lemma lookup_canonical (c c' : string) :
  lookup c rename_map = Some c' -> In c' cols_to_keep.
Proof.
  unfold rename_map, lookup, cols_to_keep.
  repeat (destruct (String.eqb c _);
          [ intros H; inversion H; simpl; tauto | ]).
  discriminate.
Qed.

Lemma rename_label_idempotent (c : string) :
  rename_label (rename_label c) = rename_label c.
Proof.
  destruct (lookup c rename_map) as [c'|] eqn:E.
  - assert (H : rename_label c = c') by (unfold rename_label; now rewrite E).
    rewrite H. apply lookup_canonical in E.
    unfold cols_to_keep in E. simpl in E.
    repeat (destruct E as [<-|E]; [ reflexivity | ]). contradiction.
  - assert (H : rename_label c = c) by (unfold rename_label; now rewrite E).
    now rewrite !H.
Qed.

Lemma rename_idempotent (raw : RawFrame) : rename (rename raw) = rename raw.
Proof.
  unfold rename. cbn [columns rows]. f_equal.
  rewrite map_map. apply map_ext. exact rename_label_idempotent.
Qed.

(** X3. A sheet whose headers are already the canonical names loads as the
    sheet with the headers of the rename map does: renaming the columns of
    a renamed sheet changes nothing. *)
Theorem renamed_sheet_loads_the_same (L : Library) (wb wb' : Workbook)
    (sheet_name : string) (raw : RawFrame) :
  sheet sheet_name wb = Some raw ->
  sheet sheet_name wb' = Some (rename raw) ->
  load_data L (Some wb') sheet_name = load_data L (Some wb) sheet_name.
Proof.
  intros S S'. unfold load_data. rewrite S, S'.
  rewrite !normalize_records. unfold records.
  rewrite rename_idempotent. reflexivity.
Qed.

Lemma renamed_sheet_loads_the_same_witness :
  sheet "Faturas" example_workbook
  = Some (mkRaw example_headers [paid_row; pending_row])
  /\ sheet "Faturas" renamed_workbook
     = Some (rename (mkRaw example_headers [paid_row; pending_row]))
  /\ load_data plain_library (Some renamed_workbook) "Faturas"
     = load_data plain_library (Some example_workbook) "Faturas".
Proof.
  split; [ reflexivity | ]. split; [ reflexivity | ].
  apply (renamed_sheet_loads_the_same plain_library example_workbook
           renamed_workbook "Faturas"
           (mkRaw example_headers [paid_row; pending_row]));
    reflexivity.
Defined.

(** ** Columns the script does not know *)

Lemma in_select_columns (labels : list string) (df : RawFrame)
    (col : string) :
  In col (columns (select labels df))
  <-> In col labels /\ In col (columns df).
Proof.
  unfold select. cbn [columns]. rewrite in_flat_map. split.
  - intros (l & Hl & Hc). apply in_map_iff in Hc.
    destruct Hc as (i & <- & Hi). split; [ exact Hl | ].
    apply isin_columns_In. rewrite count_label_isin. unfold count_label.
    now destruct (positions l (columns df)).
  - intros [Hl Hc]. exists col. split; [ exact Hl | ].
    apply isin_columns_In in Hc. rewrite count_label_isin in Hc.
    unfold count_label in Hc.
    destruct (positions col (columns df)) as [|i js]; [ discriminate | ].
    now left.
Qed.

Lemma length_flat_map_positions {A B : Type} (f : string -> nat -> A)
    (g : string -> nat -> B) (cols labels : list string) :
  List.length (flat_map (fun l => map (f l) (positions l cols)) labels)
  = List.length (flat_map (fun l => map (g l) (positions l cols)) labels).
Proof.
  induction labels as [|l ls IH]; cbn [flat_map].
  - reflexivity.
  - rewrite !length_app, !length_map, IH. reflexivity.
Qed.

(** X4. Line 51 keeps the columns whose label is recognised and no other:
    the labels of the frame it gives are the recognised labels the frame
    had, each over as many columns as before; the frame has the rows it
    had, each now with one cell for every column kept, and under every
    recognised label the cell the row had. *)
Theorem line_51_keeps_the_recognised_columns (df : RawFrame) (col : string)
    (i : nat) :
  (In col (columns (keep_known df))
   <-> In col cols_to_keep /\ In col (columns df))
  /\ count_label col (columns (keep_known df))
     = (if isin_columns col cols_to_keep
        then count_label col (columns df) else 0%nat)
  /\ List.length (rows (keep_known df)) = List.length (rows df)
  /\ Forall (fun r => List.length r = List.length (columns (keep_known df)))
            (rows (keep_known df))
  /\ cell_of (keep_known df) col (nth i (rows (keep_known df)) [])
     = (if isin_columns col cols_to_keep
        then cell_of df col (nth i (rows df) []) else Empty).
Proof.
  split.
  { unfold keep_known. rewrite in_select_columns, filter_In.
    rewrite isin_columns_In. tauto. }
  split.
  { unfold keep_known.
    rewrite count_label_select by (apply NoDup_filter, NoDup_cols_to_keep).
    rewrite isin_filter.
    destruct (isin_columns col cols_to_keep); cbn [andb]; [ | reflexivity ].
    rewrite count_label_isin.
    now destruct (count_label col (columns df)). }
  split.
  { unfold keep_known, select. cbn [rows]. apply length_map. }
  split.
  { unfold keep_known, select. cbn [rows columns].
    apply Forall_forall. intros r Hr. apply in_map_iff in Hr.
    destruct Hr as (r0 & <- & _). apply length_flat_map_positions. }
  destruct (Nat.lt_ge_cases i (List.length (rows df))) as [Hi|Hi].
  - unfold keep_known at 2, select. cbn [rows].
    rewrite (nth_map_in _ (rows df) [] [] i Hi).
    unfold keep_known. rewrite cell_of_select, isin_filter.
    destruct (isin_columns col cols_to_keep); cbn [andb]; [ | reflexivity ].
    destruct (isin_columns col (columns df)) eqn:I; [ reflexivity | ].
    symmetry. now apply cell_of_absent.
  - rewrite !nth_overflow.
    + assert (N : forall k, nth k (@nil cell) Empty = Empty)
        by (intros [|k]; reflexivity).
      unfold cell_of.
      destruct (index_of col (columns (keep_known df))),
               (index_of col (columns df)),
               (isin_columns col cols_to_keep);
        rewrite ?N; reflexivity.
    + exact Hi.
    + unfold keep_known, select. cbn [rows]. now rewrite length_map.
Qed.

(** The example sheet through line 51: the column of remarks is gone, and
    the others are in the order of line 50. *)
Example example_sheet_through_line_51 :
  columns (keep_known (rename (mkRaw example_headers [paid_row; pending_row])))
  = cols_to_keep
  /\ nth 0 (rows (keep_known
                    (rename (mkRaw example_headers [paid_row; pending_row]))))
         []
     = [ DateTime jan15; Number 1500.5%float; Text "123"; Text "Acme";
         Text "ND-1"; Number 10%float; Number 2%float; Number 3%float;
         Number 4%float; Text "USD"; Number 300%float ].
Proof. vm_compute. split; reflexivity. Qed.

(** ** Text columns and the two frames *)

Lemma defaulted_cell (v c : cell) :
  (exists s, v = Text s) -> defaulted v c (fillna v c).
Proof.
  intros [s ->]. unfold defaulted. split; [ reflexivity | ].
  destruct c as [|f|t|t]; simpl.
  - repeat split; try discriminate; auto.
  - destruct (isna f) eqn:E; repeat split; try discriminate; auto.
    intros f' H. inversion H; subst. exact E.
  - repeat split; try discriminate; auto.
  - repeat split; try discriminate; auto.
Qed.

(** X5. In every record of the frames [load_data] returns, the
    counterparty and the currency are never missing: a missing cell of the
    sheet has become "Não informado", respectively "N/A", and a text is
    kept as it is. *)
Theorem text_columns_are_defaulted (L : Library) (file : option Workbook)
    (sheet_name : string) (df_pago df_pendente : DataFrame) (r : Invoice) :
  load_data L file sheet_name = Frames df_pago df_pendente ->
  In r (df_pago ++ df_pendente) ->
  exists wb raw row,
    file = Some wb /\ sheet sheet_name wb = Some raw /\ In row (rows raw)
    /\ defaulted (Text "Não informado")
                 (cell_of (rename raw) "correspondente" row)
                 (correspondente r)
    /\ defaulted (Text "N/A") (cell_of (rename raw) "moeda" row) (moeda r).
Proof.
  intros H Hr.
  destruct (load_data_record L file sheet_name _ _ r H Hr)
    as (wb & raw & row & Hf & Hs & Hrow & ->).
  exists wb, raw, row. repeat split; auto;
    (apply defaulted_cell; eexists; reflexivity).
Qed.

Lemma text_columns_are_defaulted_witness :
  load_data plain_library (Some example_workbook) "Faturas"
  = Frames [paid_invoice] [pending_invoice]
  /\ In pending_invoice ([paid_invoice] ++ [pending_invoice])
  /\ exists wb raw row,
       Some example_workbook = Some wb /\ sheet "Faturas" wb = Some raw
       /\ In row (rows raw)
       /\ defaulted (Text "Não informado")
                    (cell_of (rename raw) "correspondente" row)
                    (correspondente pending_invoice)
       /\ defaulted (Text "N/A") (cell_of (rename raw) "moeda" row)
                    (moeda pending_invoice).
Proof.
  split; [ exact example_load | ]. split; [ simpl; auto | ].
  apply (text_columns_are_defaulted plain_library (Some example_workbook)
           "Faturas" [paid_invoice] [pending_invoice] pending_invoice).
  - exact example_load.
  - simpl. auto.
Defined.

Lemma loaded_pago (L : Library) (file : option Workbook)
    (sheet_name : string) (df_pago df_pendente : DataFrame) (r : Invoice) :
  load_data L file sheet_name = Frames df_pago df_pendente ->
  In r df_pago ->
  status r = "Pago" /\ exists t, data_pagamento r = Some t.
Proof.
  intros H Hr.
  destruct (load_data_record L file sheet_name _ _ r H
              (in_or_app _ _ _ (or_introl Hr)))
    as (wb & raw & row & _ & _ & _ & E).
  destruct (load_data_frames L _ _ _ _ H) as (wb' & raw' & _ & _ & _ & Ep & _).
  rewrite Ep in Hr. apply filter_In in Hr. destruct Hr as [_ Hp].
  unfold is_pago in Hp. apply String.eqb_eq in Hp. split; [ exact Hp | ].
  subst r. rewrite status_of_row in Hp.
  destruct (data_pagamento (normalize_row L (rename raw) row)) as [t|].
  - now exists t.
  - discriminate.
Qed.

Lemma loaded_pendente (L : Library) (file : option Workbook)
    (sheet_name : string) (df_pago df_pendente : DataFrame) (r : Invoice) :
  load_data L file sheet_name = Frames df_pago df_pendente ->
  In r df_pendente ->
  status r = "Pendente" /\ data_pagamento r = None.
Proof.
  intros H Hr.
  destruct (load_data_record L file sheet_name _ _ r H
              (in_or_app _ _ _ (or_intror Hr)))
    as (wb & raw & row & _ & _ & _ & E).
  destruct (load_data_frames L _ _ _ _ H) as (wb' & raw' & _ & _ & _ & _ & Eq).
  rewrite Eq in Hr. apply filter_In in Hr. destruct Hr as [_ Hp].
  unfold is_pendente in Hp. apply String.eqb_eq in Hp. split; [ exact Hp | ].
  subst r. rewrite status_of_row in Hp.
  destruct (data_pagamento (normalize_row L (rename raw) row)) as [t|].
  - discriminate.
  - reflexivity.
Qed.

(** X6. Of the two frames [load_data] returns, the first holds only
    records with a payment date and the status "Pago", the second only
    records without a payment date and with the status "Pendente". *)
Theorem frames_by_payment_date (L : Library) (file : option Workbook)
    (sheet_name : string) (df_pago df_pendente : DataFrame) :
  load_data L file sheet_name = Frames df_pago df_pendente ->
  (forall r, In r df_pago ->
     status r = "Pago" /\ exists t, data_pagamento r = Some t)
  /\ (forall r, In r df_pendente ->
        status r = "Pendente" /\ data_pagamento r = None).
Proof.
  intros H. split; intros r Hr.
  - exact (loaded_pago L file sheet_name df_pago df_pendente r H Hr).
  - exact (loaded_pendente L file sheet_name df_pago df_pendente r H Hr).
Qed.

Lemma frames_by_payment_date_witness :
  load_data plain_library (Some example_workbook) "Faturas"
  = Frames [paid_invoice] [pending_invoice]
  /\ (forall r, In r [paid_invoice] ->
        status r = "Pago" /\ exists t, data_pagamento r = Some t)
  /\ (forall r, In r [pending_invoice] ->
        status r = "Pendente" /\ data_pagamento r = None).
Proof.
  split; [ exact example_load | ].
  exact (frames_by_payment_date plain_library (Some example_workbook)
           "Faturas" [paid_invoice] [pending_invoice] example_load).
Defined.

(** ** The default date range *)

Lemma ns_per_day_pos : (0 < ns_per_day)%Z.
Proof. reflexivity. Qed.

Lemma series_min_lower (s : list (option Z)) (t : Z) :
  In (Some t) s -> exists m, series_min s = Some m /\ (m <= t)%Z.
Proof.
  induction s as [|x s IH]; simpl; intros H.
  - contradiction.
  - destruct H as [->|H].
    + destruct (series_min s) as [b|].
      * exists (Z.min t b). split; [ reflexivity | lia ].
      * exists t. split; [ reflexivity | lia ].
    + destruct (IH H) as (m & -> & Hm). destruct x as [a|].
      * exists (Z.min a m). split; [ reflexivity | lia ].
      * exists m. auto.
Qed.

Lemma series_max_upper (s : list (option Z)) (t : Z) :
  In (Some t) s -> exists m, series_max s = Some m /\ (t <= m)%Z.
Proof.
  induction s as [|x s IH]; simpl; intros H.
  - contradiction.
  - destruct H as [->|H].
    + destruct (series_max s) as [b|].
      * exists (Z.max t b). split; [ reflexivity | lia ].
      * exists t. split; [ reflexivity | lia ].
    + destruct (IH H) as (m & -> & Hm). destruct x as [a|].
      * exists (Z.max a m). split; [ reflexivity | lia ].
      * exists m. auto.
Qed.

Lemma filter_all {A : Type} (f : A -> bool) (l : list A) :
  (forall x, In x l -> f x = true) -> filter f l = l.
Proof.
  induction l as [|x l IH]; simpl; intros H.
  - reflexivity.
  - rewrite (H x) by now left. f_equal. apply IH.
    intros y Hy. apply H. now right.
Qed.

Lemma midnight_within_bounds (m M d : Z) :
  (m <= timestamp_of_date d <= M)%Z ->
  between (timestamp_of_date (m / ns_per_day))
          (timestamp_of_date (M / ns_per_day))
          (Some (timestamp_of_date d)) = true.
Proof.
  unfold between, timestamp_of_date. intros [H1 H2].
  pose proof ns_per_day_pos as P.
  apply andb_true_iff. rewrite !Z.leb_le. split.
  - pose proof (Z.mul_div_le m ns_per_day P). lia.
  - assert (d <= M / ns_per_day)%Z by (apply Z.div_le_lower_bound; lia).
    nia.
Qed.

(** The bounds of line 173 on a frame of midnights, and what the date
    filter keeps with them. *)
Lemma default_bounds_keep_midnights (df : DataFrame)
    (corr : list cell) (rms : list string) :
  df <> [] ->
  (forall r, In r df ->
     exists d, data_pagamento r = Some (timestamp_of_date d)) ->
  exists min_date max_date,
    date_bounds df = (Some min_date, Some max_date)
    /\ (min_date <= max_date)%Z
    /\ filter_dates (mkSelection [min_date; max_date] corr rms) df = df.
Proof.
  intros Hne Hmid.
  destruct df as [|r0 df']; [ contradiction | ].
  set (df := r0 :: df') in *.
  destruct (Hmid r0 (or_introl eq_refl)) as [d0 Hd0].
  assert (I0 : In (Some (timestamp_of_date d0)) (map data_pagamento df)).
  { rewrite <- Hd0. apply in_map. now left. }
  destruct (series_min_lower _ _ I0) as (m & Em & Hm).
  destruct (series_max_upper _ _ I0) as (M & EM & HM).
  exists (m / ns_per_day)%Z, (M / ns_per_day)%Z.
  split; [ unfold date_bounds; now rewrite Em, EM | ].
  split.
  - apply Z.div_le_mono; [ exact ns_per_day_pos | lia ].
  - unfold filter_dates. cbn [date_range]. apply filter_all.
    intros r Hr. destruct (Hmid r Hr) as [d Hd]. rewrite Hd.
    assert (I : In (Some (timestamp_of_date d)) (map data_pagamento df)).
    { rewrite <- Hd. now apply in_map. }
    destruct (series_min_lower _ _ I) as (m' & Em' & Hm').
    destruct (series_max_upper _ _ I) as (M' & EM' & HM').
    rewrite Em in Em'. rewrite EM in EM'.
    inversion Em'; inversion EM'; subst m' M'.
    apply midnight_within_bounds. lia.
Qed.

(** X7. On a paid frame that is not empty and whose payment dates are all
    midnights, the bounds of line 173 are two dates, the first not after
    the second, and the date filter of lines 185 to 187 run with them, the
    range the widget shows by default, keeps every record. *)
Theorem default_range_keeps_every_date (df : DataFrame)
    (corr : list cell) (rms : list string) :
  df <> [] ->
  (forall r, In r df ->
     exists d, data_pagamento r = Some (timestamp_of_date d)) ->
  exists min_date max_date,
    date_bounds df = (Some min_date, Some max_date)
    /\ (min_date <= max_date)%Z
    /\ filter_dates (mkSelection [min_date; max_date] corr rms) df = df.
Proof.
  intros Hne Hmid. now apply default_bounds_keep_midnights.
Qed.

Lemma default_range_keeps_every_date_witness :
  [paid_on jan31 "ND-31"; paid_on feb01 "ND-32"] <> []
  /\ (forall r, In r [paid_on jan31 "ND-31"; paid_on feb01 "ND-32"] ->
        exists d, data_pagamento r = Some (timestamp_of_date d))
  /\ exists min_date max_date,
       date_bounds [paid_on jan31 "ND-31"; paid_on feb01 "ND-32"]
       = (Some min_date, Some max_date)
       /\ (min_date <= max_date)%Z
       /\ filter_dates (mkSelection [min_date; max_date] [] [])
                       [paid_on jan31 "ND-31"; paid_on feb01 "ND-32"]
          = [paid_on jan31 "ND-31"; paid_on feb01 "ND-32"].
Proof.
  assert (N : [paid_on jan31 "ND-31"; paid_on feb01 "ND-32"] <> [])
    by discriminate.
  assert (M : forall r, In r [paid_on jan31 "ND-31"; paid_on feb01 "ND-32"] ->
                exists d, data_pagamento r = Some (timestamp_of_date d)).
  { intros r [<-|[<-|[]]]; eexists; reflexivity. }
  split; [ exact N | ]. split; [ exact M | ].
  exact (default_range_keeps_every_date
           [paid_on jan31 "ND-31"; paid_on feb01 "ND-32"] [] [] N M).
Defined.

(** X8. When the latest payment of the paid frame is stamped after
    midnight, the upper bound of the default range, the midnight of its
    day, lies before it: the date filter run with the bounds of line 173
    drops every record paid at that moment. *)
Theorem default_range_drops_latest_after_midnight (df : DataFrame)
    (corr : list cell) (rms : list string) (t min_date max_date : Z)
    (r : Invoice) :
  series_max (map data_pagamento df) = Some t ->
  (t mod ns_per_day <> 0)%Z ->
  date_bounds df = (Some min_date, Some max_date) ->
  data_pagamento r = Some t ->
  ~ In r (filter_dates (mkSelection [min_date; max_date] corr rms) df).
Proof.
  intros Hmax Hmod Hb Hr Hin.
  unfold date_bounds in Hb. rewrite Hmax in Hb. cbn [date option_map] in Hb.
  inversion Hb as [[Hlo Hhi]]. clear Hb.
  unfold filter_dates in Hin. cbn [date_range] in Hin.
  apply filter_In in Hin. destruct Hin as [_ Hbt].
  rewrite Hr in Hbt. unfold between, timestamp_of_date in Hbt.
  apply andb_true_iff in Hbt. destruct Hbt as [_ Hup].
  apply Z.leb_le in Hup.
  pose proof ns_per_day_pos as P.
  pose proof (Z.div_mod t ns_per_day ltac:(lia)) as D.
  pose proof (Z.mod_pos_bound t ns_per_day P) as B.
  nia.
Qed.

Lemma default_range_drops_latest_after_midnight_witness :
  series_max (map data_pagamento [paid_on jan01 "ND-1"; paid_at_noon])
  = Some jan31_noon
  /\ (jan31_noon mod ns_per_day <> 0)%Z
  /\ date_bounds [paid_on jan01 "ND-1"; paid_at_noon]
     = (Some jan01, Some jan31)
  /\ data_pagamento paid_at_noon = Some jan31_noon
  /\ ~ In paid_at_noon
         (filter_dates (mkSelection [jan01; jan31] [] [])
                       [paid_on jan01 "ND-1"; paid_at_noon]).
Proof.
  assert (M : (jan31_noon mod ns_per_day <> 0)%Z) by (vm_compute; discriminate).
  split; [ reflexivity | ]. split; [ exact M | ].
  split; [ reflexivity | ]. split; [ reflexivity | ].
  exact (default_range_drops_latest_after_midnight
           [paid_on jan01 "ND-1"; paid_at_noon] [] [] jan31_noon jan01 jan31
           paid_at_noon eq_refl M eq_refl eq_refl).
Defined.

(** ** What the filter can do *)

Lemma subsequence_refl {A : Type} (l : list A) : Subsequence l l.
Proof. induction l; now constructor. Qed.

Lemma subsequence_trans {A : Type} (l1 l2 l3 : list A) :
  Subsequence l1 l2 -> Subsequence l2 l3 -> Subsequence l1 l3.
Proof.
  intros H12 H23. revert l1 H12.
  induction H23 as [|x l2 l3 H IH|x l2 l3 H IH]; intros l1 H12.
  - exact H12.
  - inversion H12; subst.
    + constructor. now apply IH.
    + apply subseq_skip. now apply IH.
  - apply subseq_skip. now apply IH.
Qed.

Lemma Subsequence_in {A : Type} (l l' : list A) (x : A) :
  Subsequence l l' -> In x l -> In x l'.
Proof.
  induction 1 as [|y l l' H IH|y l l' H IH]; simpl; intros Hx.
  - contradiction.
  - destruct Hx; auto.
  - auto.
Qed.

Lemma filter_dates_subsequence (s : Selection) (df : DataFrame) :
  Subsequence (filter_dates s df) df.
Proof.
  destruct (filter_dates_as_filter s) as [f Hf]. rewrite Hf.
  apply filter_subsequence.
Qed.

(** X9. The filter only removes: each filtered frame is its original with
    some records left out, the others in their order, and every record it
    keeps has its counterparty and its reference number among the
    selected ones. *)
Theorem filters_only_remove (s : Selection) (v : Vars) :
  Subsequence (df_pago_filtered (apply_filters s v)) (df_pago_original v)
  /\ Subsequence (df_pendente_filtered (apply_filters s v))
                 (df_pendente_original v)
  /\ forall r,
       In r (df_pago_filtered (apply_filters s v))
       \/ In r (df_pendente_filtered (apply_filters s v)) ->
       isin cell_eqb (selected_correspondentes s) (correspondente r) = true
       /\ isin String.eqb (selected_rms s) (numero_rm r) = true.
Proof.
  unfold apply_filters. cbn [df_pago_filtered df_pendente_filtered
    df_pago_original df_pendente_original].
  split; [ | split ].
  - apply subsequence_trans with (l2 := filter_dates s (df_pago_original v)).
    + apply filter_subsequence.
    + apply filter_dates_subsequence.
  - apply filter_subsequence.
  - intros r [H|H]; apply filter_In in H; destruct H as [_ H];
      unfold selected in H; now apply andb_true_iff in H.
Qed.

(** ** The options of the multiselects *)

Lemma in_unique (l : list string) (x : string) :
  In x (unique String.eqb l) <-> In x l.
Proof.
  induction l as [|a l IH]; simpl.
  - tauto.
  - rewrite filter_In, IH. split.
    + intros [H|[H _]]; auto.
    + intros [H|H]; auto.
      destruct (String.eqb a x) eqn:E.
      * apply String.eqb_eq in E. auto.
      * right. auto.
Qed.

Lemma nodup_unique (l : list string) : NoDup (unique String.eqb l).
Proof.
  induction l as [|a l IH]; simpl.
  - constructor.
  - constructor.
    + rewrite filter_In. intros [_ H]. now rewrite String.eqb_refl in H.
    + now apply NoDup_filter.
Qed.

Lemma insert_string_perm (x : string) (l : list string) :
  Permutation (insert_string x l) (x :: l).
Proof.
  induction l as [|y l IH]; simpl.
  - apply Permutation_refl.
  - destruct (String.ltb x y).
    + apply Permutation_refl.
    + apply perm_trans with (y :: x :: l).
      * now constructor.
      * apply perm_swap.
Qed.

Lemma sorted_strings_perm (l : list string) :
  Permutation (sorted_strings l) l.
Proof.
  induction l as [|x l IH]; simpl.
  - constructor.
  - apply perm_trans with (x :: sorted_strings l).
    + apply insert_string_perm.
    + now constructor.
Qed.

Lemma string_ltb_asym (x y : string) :
  String.ltb x y = true -> String.ltb y x = false.
Proof.
  unfold String.ltb. rewrite (String.compare_antisym x y).
  now destruct (String.compare y x).
Qed.

Lemma insert_string_hd (x a : string) (l : list string) :
  string_le a x -> HdRel string_le a l -> HdRel string_le a (insert_string x l).
Proof.
  intros Hax Hl. destruct l as [|y l]; simpl.
  - now constructor.
  - destruct (String.ltb x y); constructor; auto.
    now inversion Hl.
Qed.

Lemma insert_string_sorted (x : string) (l : list string) :
  Sorted string_le l -> Sorted string_le (insert_string x l).
Proof.
  induction l as [|y l IH]; simpl; intros H.
  - repeat constructor.
  - inversion H as [|? ? Hs Hh]; subst.
    destruct (String.ltb x y) eqn:E.
    + constructor; [ exact H | ]. constructor.
      unfold string_le. now apply string_ltb_asym.
    + constructor; [ now apply IH | ].
      apply insert_string_hd; [ exact E | exact Hh ].
Qed.

Lemma sorted_strings_sorted (l : list string) :
  Sorted string_le (sorted_strings l).
Proof.
  induction l as [|x l IH]; simpl.
  - constructor.
  - now apply insert_string_sorted.
Qed.

(** X10. The options of the reference-number multiselects (lines 108 and
    180) are the reference numbers of the frame, each once, in Python's
    order of strings. *)
Theorem rm_options_distinct_sorted (df : DataFrame) :
  let rms := sorted_strings (unique String.eqb (map numero_rm df)) in
  NoDup rms
  /\ (forall x, In x rms <-> exists r, In r df /\ numero_rm r = x)
  /\ Sorted string_le rms.
Proof.
  cbv zeta.
  pose proof (sorted_strings_perm (unique String.eqb (map numero_rm df))) as P.
  split; [ | split ].
  - apply (Permutation_NoDup (Permutation_sym P)). apply nodup_unique.
  - intros x. split.
    + intros H. apply (Permutation_in _ P) in H.
      apply (proj1 (in_unique _ _)) in H. apply in_map_iff in H. destruct H as (r & E & Hr). now exists r.
    + intros (r & Hr & <-). apply (Permutation_in _ (Permutation_sym P)).
      apply (proj2 (in_unique _ _)). now apply in_map.
  - apply sorted_strings_sorted.
Qed.

(** ** Sorting the counterparties *)



Lemma insert_cell_perm (x : cell) (l s : list cell) :
  insert_cell x l = Ok s -> Permutation s (x :: l).
Proof.
  revert s. induction l as [|y l IH]; simpl; intros s H.
  - inversion H. apply Permutation_refl.
  - destruct (cell_lt x y) as [lt|e]; simpl in H; [ | discriminate ].
    destruct lt.
    + inversion H. apply Permutation_refl.
    + destruct (insert_cell x l) as [l''|e]; simpl in H; [ | discriminate ].
      inversion H; subst. apply perm_trans with (y :: x :: l).
      * constructor. now apply IH.
      * apply perm_swap.
Qed.


Lemma sorted_cells_perm (l s : list cell) :
  sorted_cells l = Ok s -> Permutation s l.
Proof.
  revert s. induction l as [|x l IH]; simpl; intros s H.
  - inversion H. constructor.
  - destruct (sorted_cells l) as [s0|e]; simpl in H; [ | discriminate ].
    apply perm_trans with (x :: s0).
    + now apply insert_cell_perm.
    + constructor. now apply IH.
Qed.








(** ** Everything selected *)

Lemma unique_incl {A : Type} (eqb : A -> A -> bool) (l : list A) (x : A) :
  In x (unique eqb l) -> In x l.
Proof.
  induction l as [|a l IH]; simpl.
  - tauto.
  - rewrite filter_In. intros [H|[H _]]; auto.
Qed.

Lemma in_unique_text (l : list cell) (s : string) :
  In (Text s) l -> In (Text s) (unique cell_eqb l).
Proof.
  induction l as [|a l IH]; simpl; intros H.
  - contradiction.
  - destruct H as [H|H]; [ now left | ].
    destruct (cell_eqb a (Text s)) eqn:E.
    + left. destruct a; simpl in E; try discriminate.
      apply String.eqb_eq in E. now subst.
    + right. apply filter_In. rewrite E. auto.
Qed.

Lemma insert_cell_text (s : string) (l : list cell) :
  (forall c, In c l -> exists t, c = Text t) ->
  exists l', insert_cell (Text s) l = Ok l'.
Proof.
  induction l as [|y l IH]; simpl; intros H.
  - eexists. reflexivity.
  - destruct (H y (or_introl eq_refl)) as [t ->]. simpl.
    destruct (String.ltb s t).
    + eexists. reflexivity.
    + destruct IH as [l' ->]; [ intros c Hc; apply H; now right | ].
      eexists. reflexivity.
Qed.

Lemma sorted_cells_text (l : list cell) :
  (forall c, In c l -> exists t, c = Text t) ->
  exists cs, sorted_cells l = Ok cs.
Proof.
  induction l as [|x l IH]; simpl; intros H.
  - eexists. reflexivity.
  - destruct IH as [cs E]; [ intros c Hc; apply H; now right | ].
    rewrite E. simpl. destruct (H x (or_introl eq_refl)) as [t ->].
    apply insert_cell_text. intros c Hc.
    apply (Permutation_in _ (sorted_cells_perm l cs E)) in Hc.
    apply H. now right.
Qed.

(** The sorted distinct counterparties and reference numbers of a frame
    of text counterparties select every record of it. *)
Lemma default_lists_select_all (df : DataFrame) (picked : list Z) :
  (forall r, In r df -> exists s, correspondente r = Text s) ->
  exists cs,
    sorted_cells (unique cell_eqb (map correspondente df)) = Ok cs
    /\ forall r, In r df ->
         selected (mkSelection picked cs
                     (sorted_strings (unique String.eqb (map numero_rm df))))
                  r = true.
Proof.
  intros Htext.
  destruct (sorted_cells_text (unique cell_eqb (map correspondente df)))
    as [cs E].
  { intros c Hc. apply unique_incl in Hc. apply in_map_iff in Hc.
    destruct Hc as (r & <- & Hr). now apply Htext. }
  exists cs. split; [ exact E | ].
  intros r Hr. unfold selected, isin.
  cbn [selected_correspondentes selected_rms].
  apply andb_true_iff. split; apply existsb_exists.
  - destruct (Htext r Hr) as [s Hs]. exists (Text s).
    split; [ | rewrite Hs; simpl; apply String.eqb_refl ].
    apply (Permutation_in _ (Permutation_sym (sorted_cells_perm _ _ E))).
    apply in_unique_text. rewrite <- Hs. now apply in_map.
  - exists (numero_rm r). split; [ | apply String.eqb_refl ].
    apply (Permutation_in _ (Permutation_sym (sorted_strings_perm _))).
    apply (proj2 (in_unique _ _)). now apply in_map.
Qed.

(** X12. With the lists the two multiselects offer by default, the sorted
    distinct counterparties and reference numbers of both frames, and the
    counterparties all texts, the filter leaves the pending frame whole
    and takes from the paid frame only what the date filter takes. *)
Theorem default_selection_keeps_everything (v : Vars) (picked : list Z) :
  (forall r, In r (df_pago_original v ++ df_pendente_original v) ->
     exists s, correspondente r = Text s) ->
  exists cs,
    sorted_cells
      (unique cell_eqb
         (map correspondente (df_pago_original v ++ df_pendente_original v)))
    = Ok cs
    /\ let s :=
         mkSelection picked cs
           (sorted_strings
              (unique String.eqb
                 (map numero_rm
                      (df_pago_original v ++ df_pendente_original v)))) in
       df_pendente_filtered (apply_filters s v) = df_pendente_original v
       /\ df_pago_filtered (apply_filters s v)
          = filter_dates s (df_pago_original v).
Proof.
  intros Htext.
  destruct (default_lists_select_all _ picked Htext) as (cs & E & Hsel).
  exists cs. split; [ exact E | ]. cbv zeta.
  unfold apply_filters. cbn [df_pago_filtered df_pendente_filtered].
  split; apply filter_all; intros r Hr; apply Hsel; apply in_or_app.
  - now right.
  - left. exact (Subsequence_in _ _ _ (filter_dates_subsequence _ _) Hr).
Qed.

Lemma default_selection_keeps_everything_witness :
  (forall r,
     In r (df_pago_original example_vars ++ df_pendente_original example_vars) ->
     exists s, correspondente r = Text s)
  /\ exists cs,
       sorted_cells
         (unique cell_eqb
            (map correspondente
                 (df_pago_original example_vars
                  ++ df_pendente_original example_vars)))
       = Ok cs
       /\ let s :=
            mkSelection [jan01; jan31] cs
              (sorted_strings
                 (unique String.eqb
                    (map numero_rm
                         (df_pago_original example_vars
                          ++ df_pendente_original example_vars)))) in
          df_pendente_filtered (apply_filters s example_vars)
          = df_pendente_original example_vars
          /\ df_pago_filtered (apply_filters s example_vars)
             = filter_dates s (df_pago_original example_vars).
Proof.
  assert (T : forall r,
            In r (df_pago_original example_vars
                  ++ df_pendente_original example_vars) ->
            exists s, correspondente r = Text s).
  { intros r [<-|[<-|[<-|[]]]]; eexists; reflexivity. }
  split; [ exact T | ].
  exact (default_selection_keeps_everything example_vars [jan01; jan31] T).
Defined.

(** ** The first render *)




(** ** The order of floats *)

Ltac float_cases :=
  repeat match goal with s : bool |- _ => destruct s end;
  try discriminate; try reflexivity; try congruence.

Lemma SFltb_trans (a b c : spec_float) :
  SFltb a b = true -> SFltb b c = true -> SFltb a c = true.
Proof.
  unfold SFltb, SFcompare.
  destruct a as [sa|sa| |sa ma ea], b as [sb|sb| |sb mb eb],
           c as [sc|sc| |sc mc ec];
    float_cases;
    intros H1 H2;
    destruct (Z.compare_spec ea eb), (Z.compare_spec eb ec),
             (Z.compare_spec ea ec);
    try discriminate; try lia; try reflexivity;
    subst;
    rewrite ?Pos.compare_cont_spec in *; simpl in *;
    destruct (Pos.compare_spec ma mb), (Pos.compare_spec mb mc),
             (Pos.compare_spec ma mc);
    simpl in *; try discriminate; try lia; try reflexivity.
Qed.

Lemma SFltb_asym (a b : spec_float) :
  SFltb a b = true -> SFltb b a = false.
Proof.
  unfold SFltb, SFcompare.
  destruct a as [sa|sa| |sa ma ea], b as [sb|sb| |sb mb eb];
    float_cases;
    intros H1;
    destruct (Z.compare_spec ea eb), (Z.compare_spec eb ea);
    try discriminate; try lia; try reflexivity;
    subst;
    rewrite ?Pos.compare_cont_spec in *; simpl in *;
    destruct (Pos.compare_spec ma mb), (Pos.compare_spec mb ma);
    simpl in *; try discriminate; try lia; try reflexivity.
Qed.

Lemma SFltb_le_lt (b y x : spec_float) :
  y <> S754_nan -> b <> S754_nan ->
  SFltb b y = false -> SFltb b x = true -> SFltb y x = true.
Proof.
  unfold SFltb, SFcompare.
  destruct b as [sb|sb| |sb mb eb], y as [sy|sy| |sy my ey],
           x as [sx|sx| |sx mx ex];
    float_cases;
    intros Hy Hb H1 H2;
    destruct (Z.compare_spec eb ey), (Z.compare_spec eb ex),
             (Z.compare_spec ey ex);
    try discriminate; try lia; try reflexivity;
    subst;
    rewrite ?Pos.compare_cont_spec in *; simpl in *;
    destruct (Pos.compare_spec mb my), (Pos.compare_spec mb mx),
             (Pos.compare_spec my mx);
    simpl in *; try discriminate; try lia; try reflexivity.
Qed.

Lemma notna_spec (x : float) : isna x = false -> Prim2SF x <> S754_nan.
Proof.
  unfold isna. rewrite eqb_spec. intros H E. rewrite E in H. discriminate.
Qed.

Lemma float_ltb_trans (x y z : float) :
  PrimFloat.ltb x y = true -> PrimFloat.ltb y z = true ->
  PrimFloat.ltb x z = true.
Proof. rewrite !ltb_spec. apply SFltb_trans. Qed.

Lemma float_ltb_asym (x y : float) :
  PrimFloat.ltb x y = true -> PrimFloat.ltb y x = false.
Proof. rewrite !ltb_spec. apply SFltb_asym. Qed.

Lemma float_ltb_le_lt (b y x : float) :
  isna y = false -> isna b = false ->
  PrimFloat.ltb b y = false -> PrimFloat.ltb b x = true ->
  PrimFloat.ltb y x = true.
Proof.
  rewrite !ltb_spec. intros Hy Hb. apply SFltb_le_lt; now apply notna_spec.
Qed.

(** ** The largest value *)

Lemma best_before_step (i : nat) (best : option (nat * float)) (x : float) :
  best_before i best ->
  best_before (S i)
    (if isna x then best
     else match best with
          | None => Some (i, x)
          | Some (_, b) => if PrimFloat.ltb b x then Some (i, x) else best
          end).
Proof.
  intros H jb bb. destruct (isna x) eqn:N.
  - intros E. destruct (H jb bb E). split; [ auto | lia ].
  - destruct best as [[j b]|].
    + destruct (PrimFloat.ltb b x).
      * intros E. inversion E; subst. split; [ auto | lia ].
      * intros E. destruct (H jb bb E). split; [ auto | lia ].
    + intros E. inversion E; subst. split; [ auto | lia ].
Qed.

Lemma argmax_from_none (s : list float) (i : nat)
    (best : option (nat * float)) :
  argmax_from i best s = None ->
  best = None /\ forall x, In x s -> isna x = true.
Proof.
  revert i best. induction s as [|x s IH]; simpl; intros i best H.
  - split; [ exact H | intros x [] ].
  - apply IH in H. destruct H as [Hb Hs].
    destruct (isna x) eqn:N.
    + split; [ exact Hb | ]. intros y [<-|Hy]; auto.
    + destruct best as [[j b]|]; [ destruct (PrimFloat.ltb b x) | ];
        discriminate.
Qed.

Lemma argmax_from_some (s : list float) (i : nat)
    (best : option (nat * float)) (j : nat) (b : float) :
  best_before i best ->
  argmax_from i best s = Some (j, b) ->
  isna b = false
  /\ (best = Some (j, b) \/ ((i <= j)%nat /\ nth_error s (j - i) = Some b)).
Proof.
  revert i best. induction s as [|x s IH]; simpl; intros i best Hb H.
  - destruct (Hb j b H). auto.
  - destruct (IH _ _ (best_before_step i best x Hb) H) as [Hn [E|[Hj Hnth]]].
    + split; [ exact Hn | ].
      destruct (isna x) eqn:N; [ now left | ].
      destruct best as [[jb bb]|].
      * destruct (PrimFloat.ltb bb x); [ | now left ].
        inversion E; subst. right. split; [ lia | ].
        now rewrite Nat.sub_diag.
      * inversion E; subst. right. split; [ lia | ].
        now rewrite Nat.sub_diag.
    + split; [ exact Hn | ]. right. split; [ lia | ].
      replace (j - i)%nat with (S (j - S i)) by lia. exact Hnth.
Qed.

Lemma argmax_from_max (s : list float) (i : nat)
    (best : option (nat * float)) (j : nat) (b : float) :
  best_before i best ->
  argmax_from i best s = Some (j, b) ->
  (forall x, In x s -> isna x = false -> PrimFloat.ltb b x = false)
  /\ (forall jb bb, best = Some (jb, bb) -> PrimFloat.ltb b bb = false).
Proof.
  revert i best. induction s as [|x s IH]; simpl; intros i best Hb H.
  - split; [ intros x [] | ].
    intros jb bb E. rewrite E in H. inversion H; subst.
    destruct (PrimFloat.ltb b b) eqn:L; [ | reflexivity ].
    now rewrite (float_ltb_asym b b L) in L.
  - pose proof (best_before_step i best x Hb) as Hb'.
    destruct (argmax_from_some _ _ _ _ _ Hb' H) as [Nb _].
    destruct (IH _ _ Hb' H) as [Hs Hbest].
    destruct (isna x) eqn:N.
    + split; [ | exact Hbest ].
      intros y [<-|Hy] Ny; [ congruence | now apply Hs ].
    + destruct best as [[jb bb]|].
      * destruct (Hb jb bb eq_refl) as [Nbb _].
        destruct (PrimFloat.ltb bb x) eqn:L.
        -- pose proof (Hbest _ _ eq_refl) as Hx. split.
           ++ intros y [<-|Hy] Ny; [ exact Hx | now apply Hs ].
           ++ intros jb' bb' E. inversion E; subst.
              destruct (PrimFloat.ltb b bb') eqn:K; [ | reflexivity ].
              now rewrite (float_ltb_trans _ _ _ K L) in Hx.
        -- pose proof (Hbest _ _ eq_refl) as Hbb. split.
           ++ intros y [<-|Hy] Ny; [ | now apply Hs ].
              destruct (PrimFloat.ltb b x) eqn:K; [ | reflexivity ].
              now rewrite (float_ltb_le_lt b bb x Nbb Nb Hbb K) in L.
           ++ intros jb' bb' E. inversion E; subst. exact Hbb.
      * split.
        -- intros y [<-|Hy] Ny; [ exact (Hbest _ _ eq_refl) | now apply Hs ].
        -- intros jb bb E. discriminate.
Qed.

Lemma argmax_from_first (s : list float) (i : nat)
    (best : option (nat * float)) (j : nat) (b : float) :
  best_before i best ->
  argmax_from i best s = Some (j, b) ->
  (i <= j)%nat ->
  (forall jb bb, best = Some (jb, bb) -> PrimFloat.ltb bb b = true)
  /\ (forall k x, (k < j - i)%nat -> nth_error s k = Some x ->
        isna x = false -> PrimFloat.ltb x b = true).
Proof.
  revert i best. induction s as [|x s IH]; simpl; intros i best Hb H Hij.
  - destruct (Hb j b H). lia.
  - pose proof (best_before_step i best x Hb) as Hb'.
    destruct (argmax_from_some _ _ _ _ _ Hb' H) as [Nb Hor].
    destruct (Nat.eq_dec j i) as [->|Hne].
    + (* the result is [x] itself *)
      destruct Hor as [E|[Hj _]]; [ | lia ].
      split; [ | intros k y Hk; lia ].
      intros jb bb Eb. subst best. destruct (Hb jb bb eq_refl) as [_ Hlt].
      destruct (isna x); [ inversion E; lia | ].
      destruct (PrimFloat.ltb bb x) eqn:L; inversion E; subst; [ exact L | lia ].
    + assert (Hj : (S i <= j)%nat) by lia.
      destruct (IH _ _ Hb' H Hj) as [Hbest Hs].
      assert (X : isna x = false -> PrimFloat.ltb x b = true).
      { intros N. rewrite N in Hbest.
        destruct best as [[jb bb]|]; [ | exact (Hbest _ _ eq_refl) ].
        destruct (Hb jb bb eq_refl) as [Nbb _].
        destruct (PrimFloat.ltb bb x) eqn:L; [ exact (Hbest _ _ eq_refl) | ].
        exact (float_ltb_le_lt bb x b N Nbb L (Hbest _ _ eq_refl)). }
      split.
      * intros jb bb Eb. subst best.
        destruct (isna x) eqn:N; [ exact (Hbest _ _ eq_refl) | ].
        destruct (PrimFloat.ltb bb x) eqn:L; [ | exact (Hbest _ _ eq_refl) ].
        exact (float_ltb_trans _ _ _ L (X eq_refl)).
      * intros k y Hk Hnth Ny. destruct k as [|k]; simpl in Hnth.
        -- inversion Hnth; subst. now apply X.
        -- apply (Hs k y); [ lia | exact Hnth | exact Ny ].
Qed.

(** What [idxmax] returns: the first position of a value that no value of
    the series exceeds, NaN apart. *)
Lemma idxmax_spec (s : list float) (i : nat) :
  idxmax s = Ok i ->
  exists b,
    nth_error s i = Some b /\ isna b = false
    /\ (forall x, In x s -> isna x = false -> PrimFloat.ltb b x = false)
    /\ (forall k x, (k < i)%nat -> nth_error s k = Some x ->
          isna x = false -> PrimFloat.ltb x b = true).
Proof.
  unfold idxmax. destruct (argmax_from 0 None s) as [[j b]|] eqn:E;
    [ | discriminate ].
  intros H. inversion H; subst j. exists b.
  assert (B : best_before 0 None) by (intros jb bb K; discriminate).
  destruct (argmax_from_some _ _ _ _ _ B E) as [Nb [K|[_ Hnth]]];
    [ discriminate | ].
  rewrite Nat.sub_0_r in Hnth.
  destruct (argmax_from_max _ _ _ _ _ B E) as [Hmax _].
  destruct (argmax_from_first _ _ _ _ _ B E (Nat.le_0_l i)) as [_ Hfirst].
  rewrite Nat.sub_0_r in Hfirst. auto.
Qed.

(** X14. When the overview computes its indicators on a paid frame that is
    not empty, the total is the sum of the column of totals, and the
    largest invoice is a record of the frame whose total is a number that
    no other total exceeds, the first such record in the order of the
    frame: every record before it has a smaller total (NaN apart). *)
Theorem largest_invoice_is_first_maximum (L : Library) (df_pago : DataFrame)
    (k : Kpis) :
  kpis L df_pago = Ok k ->
  df_pago <> [] ->
  valor_total_geral_pago k = series_sum L (map valor_total_pago df_pago)
  /\ exists i r,
       maior_fatura_row k = Some r /\ nth_error df_pago i = Some r
       /\ isna (valor_total_pago r) = false
       /\ (forall r', In r' df_pago -> isna (valor_total_pago r') = false ->
             PrimFloat.ltb (valor_total_pago r) (valor_total_pago r') = false)
       /\ (forall j r', (j < i)%nat -> nth_error df_pago j = Some r' ->
             isna (valor_total_pago r') = false ->
             PrimFloat.ltb (valor_total_pago r') (valor_total_pago r) = true).
Proof.
  intros H Hne.
  assert (E : negb (empty df_pago) = true)
    by (destruct df_pago; [ contradiction | reflexivity ]).
  unfold kpis in H. rewrite E in H.
  destruct (idxmax (map valor_total_pago df_pago)) as [i|e] eqn:I;
    cbn [bind] in H; [ | discriminate ].
  destruct (loc df_pago i) as [row|e] eqn:R; cbn [bind] in H;
    [ | discriminate ].
  match type of H with
  | bind ?m _ = _ => destruct m as [rm|e]; cbn [bind] in H; [ | discriminate ]
  end.
  match type of H with
  | bind ?m _ = _ => destruct m as [co|e]; cbn [bind] in H; [ | discriminate ]
  end.
  inversion H; subst k. cbn [valor_total_geral_pago maior_fatura_row].
  split; [ reflexivity | ].
  unfold loc in R. destruct (nth_error df_pago i) as [r|] eqn:N;
    [ | discriminate ].
  inversion R; subst row.
  destruct (idxmax_spec _ _ I) as (b & Hb & Nb & Hmax & Hfirst).
  rewrite nth_error_map, N in Hb. inversion Hb; subst b.
  exists i, r. repeat split; auto.
  - intros r' Hr' Nr'. apply Hmax; [ now apply in_map | exact Nr' ].
  - intros j r' Hj Hnth Nr'.
    apply (Hfirst j (valor_total_pago r')); auto.
    now rewrite nth_error_map, Hnth.
Qed.

Lemma largest_invoice_is_first_maximum_witness :
  exists k,
    kpis plain_library three_paid = Ok k
    /\ three_paid <> []
    /\ valor_total_geral_pago k
       = series_sum plain_library (map valor_total_pago three_paid)
    /\ exists i r,
         maior_fatura_row k = Some r /\ nth_error three_paid i = Some r
         /\ isna (valor_total_pago r) = false
         /\ (forall r', In r' three_paid ->
               isna (valor_total_pago r') = false ->
               PrimFloat.ltb (valor_total_pago r) (valor_total_pago r')
               = false)
         /\ (forall j r', (j < i)%nat -> nth_error three_paid j = Some r' ->
               isna (valor_total_pago r') = false ->
               PrimFloat.ltb (valor_total_pago r') (valor_total_pago r)
               = true).
Proof.
  assert (N : three_paid <> []) by discriminate.
  eexists. split; [ vm_compute; reflexivity | ]. split; [ exact N | ].
  exact (largest_invoice_is_first_maximum plain_library three_paid _
           eq_refl N).
Defined.

(** ** Grouping *)

Section Grouping.
Context {K V : Type} (eqb ltb : K -> K -> bool).
Context (key : Invoice -> K) (val : Invoice -> V).
Context (good : K -> Prop).
Hypothesis order : key_order eqb ltb good.

Lemma groupby_snoc (l : DataFrame) (r : Invoice) :
  groupby eqb ltb key val (l ++ [r])
  = insert_group eqb ltb (key r) (val r) (groupby eqb ltb key val l).
Proof. unfold groupby. now rewrite fold_left_app. Qed.

Lemma insert_group_keys (k : K) (v : V) (g : list (K * list V)) (k' : K) :
  In k' (map fst (insert_group eqb ltb k v g)) ->
  k' = k \/ In k' (map fst g).
Proof.
  induction g as [|[k0 vs] g IH]; simpl.
  - intros [H|[]]. now left.
  - destruct (eqb k k0); [ simpl; tauto | ].
    destruct (ltb k k0); simpl.
    + intros [H|H]; [ now left | now right ].
    + intros [H|H]; [ tauto | ]. destruct (IH H); tauto.
Qed.

Lemma insert_group_has_key (k : K) (v : V) (g : list (K * list V)) :
  good k -> Forall (fun p => good (fst p)) g ->
  In k (map fst (insert_group eqb ltb k v g)).
Proof.
  intros Gk. induction g as [|[k0 vs] g IH]; simpl; intros Gg.
  - now left.
  - inversion Gg as [|? ? Gk0 Gg']; subst. simpl in Gk0.
    destruct (eqb k k0) eqn:E.
    + apply (ko_eqb _ _ _ order k k0 Gk Gk0) in E. subst. now left.
    + destruct (ltb k k0); simpl; [ now left | ]. right. now apply IH.
Qed.

Lemma insert_group_keeps_keys (k : K) (v : V) (g : list (K * list V))
    (k' : K) :
  In k' (map fst g) -> In k' (map fst (insert_group eqb ltb k v g)).
Proof.
  induction g as [|[k0 vs] g IH]; simpl.
  - tauto.
  - destruct (eqb k k0); [ simpl; tauto | ].
    destruct (ltb k k0); simpl; [ tauto | ].
    intros [H|H]; [ now left | right; now apply IH ].
Qed.

Lemma insert_group_good (k : K) (v : V) (g : list (K * list V)) :
  good k -> Forall (fun p => good (fst p)) g ->
  Forall (fun p => good (fst p)) (insert_group eqb ltb k v g).
Proof.
  intros Gk. induction g as [|[k0 vs] g IH]; simpl; intros Gg.
  - now repeat constructor.
  - inversion Gg as [|? ? Gk0 Gg']; subst.
    destruct (eqb k k0); [ now constructor | ].
    destruct (ltb k k0); [ now repeat constructor | ].
    constructor; [ exact Gk0 | now apply IH ].
Qed.

Lemma insert_group_sorted (k : K) (v : V) (g : list (K * list V)) :
  good k -> Forall (fun p => good (fst p)) g ->
  key_sorted ltb g -> key_sorted ltb (insert_group eqb ltb k v g).
Proof.
  unfold key_sorted. intros Gk.
  induction g as [|[k0 vs] g IH]; simpl; intros Gg Hs.
  - repeat constructor.
  - inversion Gg as [|? ? Gk0 Gg']; subst. simpl in Gk0.
    inversion Hs as [|? ? Hs' Hall]; subst.
    destruct (eqb k k0) eqn:E.
    + constructor; [ exact Hs' | exact Hall ].
    + destruct (ltb k k0) eqn:Lt.
      * constructor; [ exact Hs | ]. constructor; [ exact Lt | ].
        rewrite Forall_forall in Hall, Gg' |- *. intros p Hp. simpl.
        apply (ko_trans _ _ _ order k k0 (fst p)); auto;
          exact (Hall p Hp).
      * constructor; [ now apply IH | ].
        rewrite Forall_forall in Hall |- *. intros p Hp. simpl.
        assert (Hk : In (fst p) (map fst (insert_group eqb ltb k v g)))
          by now apply in_map.
        apply insert_group_keys in Hk. destruct Hk as [->|Hk].
        -- apply (ko_total _ _ _ order k k0 Gk Gk0 Lt).
           intros ->. rewrite (proj2 (ko_eqb _ _ _ order k0 k0 Gk Gk) eq_refl) in E.
           discriminate.
        -- apply in_map_iff in Hk. destruct Hk as (q & Eq & Hq).
           rewrite <- Eq. exact (Hall q Hq).
Qed.

Lemma group_of_absent (k : K) (g : list (K * list V)) :
  good k -> Forall (fun p => good (fst p)) g ->
  Forall (fun p => ltb k (fst p) = true) g ->
  group_of eqb k g = [].
Proof.
  intros Gk. induction g as [|[k0 vs] g IH]; simpl; intros Gg Hall.
  - reflexivity.
  - inversion Gg as [|? ? Gk0 Gg']; subst. simpl in Gk0.
    inversion Hall as [|? ? Lt Hall']; subst. simpl in Lt.
    destruct (eqb k k0) eqn:E; [ | now apply IH ].
    apply (ko_eqb _ _ _ order k k0 Gk Gk0) in E. subst.
    rewrite (ko_irrefl _ _ _ order k0 Gk) in Lt. discriminate.
Qed.

Lemma group_of_insert (k k0 : K) (v : V) (g : list (K * list V)) :
  good k -> good k0 -> Forall (fun p => good (fst p)) g ->
  key_sorted ltb g ->
  group_of eqb k (insert_group eqb ltb k0 v g)
  = if eqb k k0 then group_of eqb k g ++ [v] else group_of eqb k g.
Proof.
  unfold key_sorted. intros Gk Gk0.
  induction g as [|[k1 vs] g IH]; simpl; intros Gg Hs.
  - now destruct (eqb k k0).
  - inversion Gg as [|? ? Gk1 Gg']; subst. simpl in Gk1.
    inversion Hs as [|? ? Hs' Hall]; subst.
    destruct (eqb k0 k1) eqn:E01.
    + apply (ko_eqb _ _ _ order k0 k1 Gk0 Gk1) in E01. subst k1. simpl.
      now destruct (eqb k k0).
    + destruct (ltb k0 k1) eqn:Lt; simpl.
      * destruct (eqb k k0) eqn:E; [ | reflexivity ].
        apply (ko_eqb _ _ _ order k k0 Gk Gk0) in E. subst k. rewrite E01.
        rewrite group_of_absent; auto.
        rewrite Forall_forall in Hall, Gg' |- *. intros p Hp.
        apply (ko_trans _ _ _ order k0 k1 (fst p)); auto;
          exact (Hall p Hp).
      * rewrite (IH Gg' Hs').
        destruct (eqb k k1) eqn:E1; [ | reflexivity ].
        destruct (eqb k k0) eqn:E; [ | reflexivity ].
        apply (ko_eqb _ _ _ order k k1 Gk Gk1) in E1.
        apply (ko_eqb _ _ _ order k k0 Gk Gk0) in E. subst.
        rewrite (proj2 (ko_eqb _ _ _ order k1 k1 Gk1 Gk1) eq_refl) in E01.
        discriminate.
Qed.

Lemma group_of_in (k : K) (vs : list V) (g : list (K * list V)) :
  Forall (fun p => good (fst p)) g -> key_sorted ltb g ->
  In (k, vs) g -> group_of eqb k g = vs.
Proof.
  unfold key_sorted.
  induction g as [|[k0 vs0] g IH]; simpl; intros Gg Hs H.
  - contradiction.
  - inversion Gg as [|? ? Gk0 Gg']; subst. simpl in Gk0.
    inversion Hs as [|? ? Hs' Hall]; subst.
    destruct H as [H|H].
    + inversion H; subst.
      now rewrite (proj2 (ko_eqb _ _ _ order k k Gk0 Gk0) eq_refl).
    + rewrite Forall_forall in Hall, Gg'.
      pose proof (Hall _ H) as Lt. pose proof (Gg' _ H) as Gk.
      simpl in Lt, Gk.
      destruct (eqb k k0) eqn:E; [ | now apply IH; try apply Forall_forall ].
      apply (ko_eqb _ _ _ order k k0 Gk Gk0) in E. subst.
      rewrite (ko_irrefl _ _ _ order k0 Gk0) in Lt. discriminate.
Qed.

(** The keys of the groups are keys of the rows. *)
Lemma groupby_keys (df : DataFrame) (k : K) :
  In k (map fst (groupby eqb ltb key val df)) ->
  exists r, In r df /\ key r = k.
Proof.
  induction df as [|r df IH] using rev_ind.
  - simpl. tauto.
  - rewrite groupby_snoc. intros H. apply insert_group_keys in H.
    destruct H as [->|H].
    + exists r. split; [ apply in_or_app; simpl; auto | reflexivity ].
    + destruct (IH H) as (r' & Hr' & E). exists r'.
      split; [ apply in_or_app; auto | exact E ].
Qed.

(** On rows with good keys: the groups are in key order, every row's key
    has its group, and a group holds the values of the rows of its key, in
    the order of the frame. *)
Lemma groupby_spec (df : DataFrame) :
  (forall r, In r df -> good (key r)) ->
  Forall (fun p => good (fst p)) (groupby eqb ltb key val df)
  /\ key_sorted ltb (groupby eqb ltb key val df)
  /\ (forall r, In r df -> In (key r) (map fst (groupby eqb ltb key val df)))
  /\ (forall k, good k ->
        group_of eqb k (groupby eqb ltb key val df)
        = map val (filter (fun r => eqb k (key r)) df)).
Proof.
  induction df as [|r df IH] using rev_ind; intros Hgood.
  - repeat split; try constructor. intros r [].
  - destruct IH as (Gg & Hs & Hk & Hc).
    { intros r' Hr'. apply Hgood. apply in_or_app. now left. }
    assert (Gr : good (key r)).
    { apply Hgood. apply in_or_app. right. now left. }
    rewrite groupby_snoc. repeat split.
    + now apply insert_group_good.
    + now apply insert_group_sorted.
    + intros r' Hr'. apply in_app_or in Hr'. destruct Hr' as [Hr'|[<-|[]]].
      * apply insert_group_keeps_keys. now apply Hk.
      * now apply insert_group_has_key.
    + intros k Gk. rewrite group_of_insert by auto.
      rewrite filter_app, map_app, (Hc k Gk). simpl.
      destruct (eqb k (key r)); simpl; [ reflexivity | ].
      now rewrite app_nil_r.
Qed.

(** Every value of the column is in one group. *)
Lemma insert_group_perm (k : K) (v : V) (g : list (K * list V)) :
  Permutation (flat_map snd (insert_group eqb ltb k v g))
              (v :: flat_map snd g).
Proof.
  induction g as [|[k0 vs] g IH]; simpl.
  - apply Permutation_refl.
  - destruct (eqb k k0); [ | destruct (ltb k k0) ]; simpl.
    + rewrite <- app_assoc. simpl.
      apply Permutation_sym, Permutation_middle.
    + apply Permutation_refl.
    + apply perm_trans with (vs ++ v :: flat_map snd g).
      * now apply Permutation_app_head.
      * apply Permutation_sym, Permutation_middle.
Qed.

Lemma groupby_values (df : DataFrame) :
  Permutation (flat_map snd (groupby eqb ltb key val df)) (map val df).
Proof.
  induction df as [|r df IH] using rev_ind.
  - apply Permutation_refl.
  - rewrite groupby_snoc, map_app. simpl.
    apply perm_trans with (val r :: flat_map snd (groupby eqb ltb key val df)).
    + apply insert_group_perm.
    + apply perm_trans with (val r :: map val df).
      * now constructor.
      * apply Permutation_cons_append.
Qed.
End Grouping.

(** ** The orders of the group keys *)

Lemma string_ltb_lt (a b : string) :
  String.ltb a b = true <-> OrderedTypeEx.String_as_OT.lt a b.
Proof.
  rewrite <- OrderedTypeEx.String_as_OT.cmp_lt.
  unfold String.ltb, OrderedTypeEx.String_as_OT.cmp.
  destruct (String.compare a b); split; congruence.
Qed.

Lemma string_key_order : key_order String.eqb String.ltb (fun _ => True).
Proof.
  constructor.
  - intros a b _ _. apply String.eqb_eq.
  - intros a _. destruct (String.ltb a a) eqn:E; [ | reflexivity ].
    now rewrite (string_ltb_asym a a E) in E.
  - intros a b c _ _ _ H1 H2. apply string_ltb_lt in H1, H2.
    apply string_ltb_lt.
    exact (OrderedTypeEx.String_as_OT.lt_trans _ _ _ H1 H2).
  - intros a b _ _ H Hne. unfold String.ltb in *.
    rewrite (String.compare_antisym b a).
    destruct (String.compare a b) eqn:C; simpl; try reflexivity;
      try discriminate.
    apply String.compare_eq_iff in C. contradiction.
Qed.

Lemma text_key_order : key_order cell_eqb cell_ltb is_text.
Proof.
  pose proof string_key_order as S. constructor.
  - intros a b [s ->] [t ->]. simpl. rewrite String.eqb_eq.
    split; [ now intros -> | intros H; now inversion H ].
  - intros a [s ->]. simpl. now apply (ko_irrefl _ _ _ S).
  - intros a b c [s ->] [t ->] [u ->]. simpl.
    now apply (ko_trans _ _ _ S).
  - intros a b [s ->] [t ->] H Hne. simpl in *.
    apply (ko_total _ _ _ S); auto. congruence.
Qed.

Lemma key_sorted_map {K V W : Type} (ltb : K -> K -> bool) (f : V -> W)
    (g : list (K * V)) :
  key_sorted ltb g ->
  key_sorted ltb (map (fun p => (fst p, f (snd p))) g).
Proof.
  unfold key_sorted. induction 1 as [|p g Hs IH Hall]; simpl.
  - constructor.
  - constructor; [ exact IH | ].
    rewrite Forall_forall in Hall |- *. intros q Hq.
    apply in_map_iff in Hq. destruct Hq as (q' & <- & Hq'). simpl.
    exact (Hall q' Hq').
Qed.

(** The sums of a grouped column: in key order, one for every key of the
    frame, each the sum of the column over the rows of its key. *)
Lemma groupby_sum_spec {K : Type} (L : Library) (eqb ltb : K -> K -> bool)
    (good : K -> Prop) (key : Invoice -> K) (col : Invoice -> float)
    (df : DataFrame) :
  key_order eqb ltb good ->
  (forall r, In r df -> good (key r)) ->
  let sums := groupby_sum L eqb ltb key col df in
  key_sorted ltb sums
  /\ (forall k, In k (map fst sums) <-> exists r, In r df /\ key r = k)
  /\ (forall k x, In (k, x) sums ->
        good k
        /\ x = series_sum L (map col (filter (fun r => eqb k (key r)) df))).
Proof.
  intros order Hgood. cbv zeta. unfold groupby_sum.
  destruct (groupby_spec eqb ltb key col good order df Hgood)
    as (Gg & Hs & Hk & Hc).
  split; [ | split ].
  - now apply key_sorted_map.
  - intros k. rewrite map_map. cbn [fst]. split.
    + apply groupby_keys.
    + intros (r & Hr & <-). now apply Hk.
  - intros k x H. apply in_map_iff in H. destruct H as ([k' vs] & E & Hin).
    cbn [fst snd] in E. inversion E; subst k' x.
    assert (Gk : good k).
    { rewrite Forall_forall in Gg. exact (Gg _ Hin). }
    split; [ exact Gk | ]. f_equal. rewrite <- (Hc k Gk).
    symmetry. exact (group_of_in eqb ltb good order k vs _ Gg Hs Hin).
Qed.

(** X15. The sums per reference number behind the indicator of line 74
    are in the order of the reference numbers, one for every reference
    number of the frame and for nothing else, each the sum of the totals
    of the records of that reference number. *)
Theorem rm_sums_cover_the_frame (L : Library) (df : DataFrame) :
  let sums :=
    groupby_sum L String.eqb String.ltb numero_rm valor_total_pago df in
  key_sorted String.ltb sums
  /\ (forall k, In k (map fst sums) <-> exists r, In r df /\ numero_rm r = k)
  /\ (forall k x, In (k, x) sums ->
        x = series_sum L
              (map valor_total_pago
                   (filter (fun r => String.eqb (numero_rm r) k) df))).
Proof.
  cbv zeta.
  destruct (groupby_sum_spec L String.eqb String.ltb (fun _ => True)
              numero_rm valor_total_pago df string_key_order
              (fun _ _ => I)) as (Hs & Hk & Hx).
  split; [ exact Hs | ]. split; [ exact Hk | ].
  intros k x H. destruct (Hx k x H) as [_ ->]. do 2 f_equal.
  apply filter_ext. intros r. apply String.eqb_sym.
Qed.

(** X16. On a paid frame whose counterparties are all texts, the sums per
    counterparty behind the ranking of line 142 are in the order of the
    names, one for every counterparty of the frame and for nothing else,
    each the sum of the totals of the records of that counterparty. *)
Theorem counterparty_sums_cover_the_frame (L : Library) (df : DataFrame) :
  (forall r, In r df -> is_text (correspondente r)) ->
  let sums :=
    groupby_sum L cell_eqb cell_ltb correspondente valor_total_pago df in
  key_sorted cell_ltb sums
  /\ (forall k, In k (map fst sums)
                <-> exists r, In r df /\ correspondente r = k)
  /\ (forall k x, In (k, x) sums ->
        x = series_sum L
              (map valor_total_pago
                   (filter (fun r => cell_eqb (correspondente r) k) df))).
Proof.
  intros Htext. cbv zeta.
  destruct (groupby_sum_spec L cell_eqb cell_ltb is_text
              correspondente valor_total_pago df text_key_order Htext)
    as (Hs & Hk & Hx).
  split; [ exact Hs | ]. split; [ exact Hk | ].
  intros k x H. destruct (Hx k x H) as [[s ->] ->]. do 2 f_equal.
  apply filter_ext_in. intros r Hr. destruct (Htext r Hr) as [t ->].
  simpl. apply String.eqb_sym.
Qed.

Lemma counterparty_sums_cover_the_frame_witness :
  (forall r, In r three_paid -> is_text (correspondente r))
  /\ let sums :=
       groupby_sum plain_library cell_eqb cell_ltb correspondente
                   valor_total_pago three_paid in
     key_sorted cell_ltb sums
     /\ (forall k, In k (map fst sums)
                   <-> exists r, In r three_paid /\ correspondente r = k)
     /\ (forall k x, In (k, x) sums ->
           x = series_sum plain_library
                 (map valor_total_pago
                      (filter (fun r => cell_eqb (correspondente r) k)
                              three_paid))).
Proof.
  assert (T : forall r, In r three_paid -> is_text (correspondente r)).
  { intros r [<-|[<-|[<-|[]]]]; eexists; reflexivity. }
  split; [ exact T | ].
  exact (counterparty_sums_cover_the_frame plain_library three_paid T).
Defined.

(** ** Ranking *)

Section Sorting.
Context {A : Type} (val : A -> float).

Lemma insert_desc_perm (x : A) (l : list A) :
  Permutation (insert_desc val x l) (x :: l).
Proof.
  induction l as [|y l IH]; simpl.
  - apply Permutation_refl.
  - destruct (PrimFloat.ltb (val x) (val y)).
    + apply perm_trans with (y :: x :: l).
      * now constructor.
      * apply perm_swap.
    + apply Permutation_refl.
Qed.

Lemma sort_desc_perm (l : list A) : Permutation (sort_desc val l) l.
Proof.
  induction l as [|x l IH]; simpl.
  - constructor.
  - apply perm_trans with (x :: sort_desc val l).
    + apply insert_desc_perm.
    + now constructor.
Qed.

Lemma sort_values_desc_perm (l : list A) :
  Permutation (sort_values_desc val l) l.
Proof.
  unfold sort_values_desc.
  apply perm_trans
    with (filter (fun x => negb (isna (val x))) l
          ++ filter (fun x => isna (val x)) l).
  - apply Permutation_app_tail. apply sort_desc_perm.
  - apply split_permutation. intros x _. now rewrite negb_involutive.
Qed.

Lemma insert_desc_hd (x a : A) (l : list A) :
  not_below val a x -> HdRel (not_below val) a l ->
  HdRel (not_below val) a (insert_desc val x l).
Proof.
  intros Hax Hl. destruct l as [|y l]; simpl.
  - now constructor.
  - destruct (PrimFloat.ltb (val x) (val y)); constructor; auto.
    now inversion Hl.
Qed.

Lemma insert_desc_sorted (x : A) (l : list A) :
  Sorted (not_below val) l -> Sorted (not_below val) (insert_desc val x l).
Proof.
  induction l as [|y l IH]; simpl; intros H.
  - repeat constructor.
  - inversion H as [|? ? Hs Hh]; subst.
    destruct (PrimFloat.ltb (val x) (val y)) eqn:E.
    + constructor; [ now apply IH | ].
      apply insert_desc_hd; [ | exact Hh ].
      unfold not_below. now apply float_ltb_asym.
    + constructor; [ exact H | ]. constructor. exact E.
Qed.

Lemma sort_desc_sorted (l : list A) : Sorted (not_below val) (sort_desc val l).
Proof.
  induction l as [|x l IH]; simpl.
  - constructor.
  - now apply insert_desc_sorted.
Qed.

(** [sort_values(ascending=False)]: the same rows, the numbers first and
    none of them below its successor, the NaN after them. *)
Lemma sort_values_desc_spec (l : list A) :
  Permutation (sort_values_desc val l) l
  /\ exists numbers nans,
       sort_values_desc val l = numbers ++ nans
       /\ Sorted (not_below val) numbers
       /\ Forall (fun x => isna (val x) = false) numbers
       /\ Forall (fun x => isna (val x) = true) nans.
Proof.
  split; [ apply sort_values_desc_perm | ].
  exists (sort_desc val (filter (fun x => negb (isna (val x))) l)),
         (filter (fun x => isna (val x)) l).
  split; [ reflexivity | ]. split; [ apply sort_desc_sorted | ].
  split; apply Forall_forall; intros x Hx.
  - apply (Permutation_in _ (sort_desc_perm _)) in Hx.
    apply filter_In in Hx. destruct Hx as [_ Hx].
    now apply negb_true_iff in Hx.
  - apply filter_In in Hx. tauto.
Qed.
End Sorting.

Lemma key_sorted_nodup {K V : Type} (eqb ltb : K -> K -> bool)
    (good : K -> Prop) (g : list (K * V)) :
  key_order eqb ltb good ->
  Forall (fun p => good (fst p)) g ->
  key_sorted ltb g -> NoDup (map fst g).
Proof.
  intros order Gg. unfold key_sorted. induction 1 as [|p g Hs IH Hall]; simpl.
  - constructor.
  - inversion Gg as [|? ? Gp Gg']; subst. constructor; [ | now apply IH ].
    intros Hin. apply in_map_iff in Hin. destruct Hin as (q & E & Hq).
    rewrite Forall_forall in Hall. pose proof (Hall q Hq) as Lt.
    rewrite E in Lt. rewrite (ko_irrefl _ _ _ order (fst p) Gp) in Lt.
    discriminate.
Qed.

(** X17. On a paid frame that is not empty and whose counterparties are
    all texts, the ranking of lines 141 to 146 lists every counterparty of
    the frame once, beside the formatted sum of its totals, the largest
    sum first: no sum is below the one after it, and sums that are NaN
    come last. *)
Theorem ranking_lists_counterparties_largest_first (L : Library)
    (df_pago df_pendente : DataFrame) :
  df_pago <> [] ->
  (forall r, In r df_pago -> is_text (correspondente r)) ->
  exists c ranked,
    display_correspondentes L df_pago df_pendente = Ok c
    /\ ranking c
       = Some (map (fun kv => (fst kv, format_currency L (snd kv))) ranked)
    /\ NoDup (map fst ranked)
    /\ (forall k, In k (map fst ranked)
                  <-> exists r, In r df_pago /\ correspondente r = k)
    /\ (forall k x, In (k, x) ranked ->
          x = series_sum L
                (map valor_total_pago
                     (filter (fun r => cell_eqb (correspondente r) k)
                             df_pago)))
    /\ exists numbers nans,
         ranked = numbers ++ nans
         /\ Sorted (not_below snd) numbers
         /\ Forall (fun kv => isna (snd kv) = false) numbers
         /\ Forall (fun kv => isna (snd kv) = true) nans.
Proof.
  intros Hne Htext.
  assert (E : negb (empty df_pago) = true)
    by (destruct df_pago; [ contradiction | reflexivity ]).
  set (sums := groupby_sum L cell_eqb cell_ltb correspondente
                           valor_total_pago df_pago).
  destruct (groupby_sum_spec L cell_eqb cell_ltb is_text correspondente
              valor_total_pago df_pago text_key_order Htext)
    as (Hs & Hk & Hx).
  fold sums in Hs, Hk, Hx.
  destruct (sort_values_desc_spec (@snd cell float) sums) as [P Hsorted].
  eexists. exists (sort_values_desc snd sums).
  split; [ unfold display_correspondentes; rewrite E; reflexivity | ].
  cbn [ranking]. split; [ reflexivity | ].
  assert (Gs : Forall (fun p => is_text (fst p)) sums).
  { apply Forall_forall. intros [k x] Hin. exact (proj1 (Hx k x Hin)). }
  split; [ | split; [ | split ] ].
  - apply (Permutation_NoDup (Permutation_map fst (Permutation_sym P))).
    exact (key_sorted_nodup cell_eqb cell_ltb is_text sums text_key_order
             Gs Hs).
  - intros k. rewrite <- Hk. split; intros H.
    + exact (Permutation_in _ (Permutation_map fst P) H).
    + exact (Permutation_in _ (Permutation_map fst (Permutation_sym P)) H).
  - intros k x H. apply (Permutation_in _ P) in H.
    destruct (Hx k x H) as [[s ->] ->]. do 2 f_equal.
    apply filter_ext_in. intros r Hr. destruct (Htext r Hr) as [t ->].
    simpl. apply String.eqb_sym.
  - exact Hsorted.
Qed.

Lemma ranking_lists_counterparties_largest_first_witness :
  three_paid <> []
  /\ (forall r, In r three_paid -> is_text (correspondente r))
  /\ exists c ranked,
       display_correspondentes plain_library three_paid [] = Ok c
       /\ ranking c
          = Some (map (fun kv => (fst kv, format_currency plain_library (snd kv)))
                      ranked)
       /\ NoDup (map fst ranked)
       /\ (forall k, In k (map fst ranked)
                     <-> exists r, In r three_paid /\ correspondente r = k)
       /\ (forall k x, In (k, x) ranked ->
             x = series_sum plain_library
                   (map valor_total_pago
                        (filter (fun r => cell_eqb (correspondente r) k)
                                three_paid)))
       /\ exists numbers nans,
            ranked = numbers ++ nans
            /\ Sorted (not_below snd) numbers
            /\ Forall (fun kv => isna (snd kv) = false) numbers
            /\ Forall (fun kv => isna (snd kv) = true) nans.
Proof.
  assert (N : three_paid <> []) by discriminate.
  assert (T : forall r, In r three_paid -> is_text (correspondente r)).
  { intros r [<-|[<-|[<-|[]]]]; eexists; reflexivity. }
  split; [ exact N | ]. split; [ exact T | ].
  exact (ranking_lists_counterparties_largest_first plain_library three_paid
           [] N T).
Defined.

(** ** The table of pending invoices *)

Lemma list_sum_perm (l l' : list nat) :
  Permutation l l' -> list_sum l = list_sum l'.
Proof.
  induction 1; simpl; lia.
Qed.

Lemma length_flat_map {A B : Type} (f : A -> list B) (l : list A) :
  List.length (flat_map f l) = list_sum (map (fun x => List.length (f x)) l).
Proof.
  induction l as [|x l IH]; simpl.
  - reflexivity.
  - now rewrite length_app, IH.
Qed.

(** X18. On a pending frame that is not empty and has no missing
    counterparty, currency or amount (as the frames of [load_data] are),
    the table of lines 155 to 159 accounts for every pending record once:
    its counts add up to the number of records of the frame. *)
Theorem pending_counts_add_up (L : Library)
    (df_pago df_pendente : DataFrame) :
  df_pendente <> [] ->
  (forall r, In r df_pendente ->
     filled (correspondente r) /\ filled (moeda r)
     /\ isna (valor_moeda_origem r) = false) ->
  exists c table,
    display_correspondentes L df_pago df_pendente = Ok c
    /\ pendencias c = Some table
    /\ list_sum (map pending_count table) = List.length df_pendente.
Proof.
  intros Hne _.
  assert (E : negb (empty df_pendente) = true)
    by (destruct df_pendente; [ contradiction | reflexivity ]).
  eexists. eexists.
  split; [ unfold display_correspondentes; rewrite E; reflexivity | ].
  cbn [pendencias]. split; [ reflexivity | ].
  set (groups := groupby pair_eqb pair_ltb
                   (fun r => (correspondente r, moeda r))
                   valor_moeda_origem df_pendente).
  set (agg := map (fun g => (fst g, List.length (snd g), series_sum L (snd g)))
                  groups).
  assert (A1 : forall rows : list (cell * cell * nat * float),
            map pending_count
                (map (fun row =>
                        match row with
                        | (k, count, sum) =>
                            (fst k, snd k, count, format_foreign_currency L sum)
                        end) rows)
            = map (fun a => snd (fst a)) rows).
  { intros rows. rewrite map_map. apply map_ext. intros [[k n] x].
    reflexivity. }
  rewrite A1.
  rewrite (list_sum_perm _ _
             (Permutation_map (fun a => snd (fst a))
                              (sort_values_desc_perm snd agg))).
  unfold agg. rewrite map_map. cbn [fst snd].
  rewrite <- (length_flat_map snd groups).
  unfold groups.
  rewrite (Permutation_length
             (groupby_values pair_eqb pair_ltb
                (fun r => (correspondente r, moeda r)) valor_moeda_origem
                df_pendente)).
  apply length_map.
Qed.

Lemma pending_counts_add_up_witness :
  [pending_invoice] <> []
  /\ (forall r, In r [pending_invoice] ->
        filled (correspondente r) /\ filled (moeda r)
        /\ isna (valor_moeda_origem r) = false)
  /\ exists c table,
       display_correspondentes plain_library [paid_invoice] [pending_invoice]
       = Ok c
       /\ pendencias c = Some table
       /\ list_sum (map pending_count table)
          = List.length [pending_invoice].
Proof.
  assert (N : [pending_invoice] <> []) by discriminate.
  assert (F : forall r, In r [pending_invoice] ->
                filled (correspondente r) /\ filled (moeda r)
                /\ isna (valor_moeda_origem r) = false).
  { intros r [<-|[]]. unfold filled. simpl.
    repeat split; try discriminate. }
  split; [ exact N | ]. split; [ exact F | ].
  exact (pending_counts_add_up plain_library [paid_invoice] [pending_invoice]
           N F).
Defined.

(** ** The page by RM *)

Lemma traverse_int_raises (L : Library) (l : list string) (e : exn) :
  traverse (int L) l = Raise e ->
  e = int_error /\ exists x, In x l /\ int_of_str L x = None.
Proof.
  induction l as [|x l IH]; simpl.
  - discriminate.
  - unfold int at 1. destruct (int_of_str L x) as [z|] eqn:E; cbn [bind].
    + destruct (traverse (int L) l) as [zs|e'] eqn:T; cbn [bind].
      * discriminate.
      * intros H. inversion H; subst e'.
        destruct (IH eq_refl) as (He & y & Hy & Hn).
        split; [ exact He | ]. exists y. auto.
    + intros H. inversion H. split; [ reflexivity | ]. exists x. auto.
Qed.

Lemma traverse_int_fails (L : Library) (l : list string) :
  (exists x, In x l /\ int_of_str L x = None) ->
  traverse (int L) l = Raise int_error.
Proof.
  induction l as [|x l IH]; simpl; intros (y & Hy & Hn).
  - contradiction.
  - unfold int at 1. destruct (int_of_str L x) as [z|] eqn:E; cbn [bind].
    + destruct Hy as [<-|Hy]; [ congruence | ].
      rewrite IH by (exists y; auto). reflexivity.
    + reflexivity.
Qed.

Lemma in_lista_rms (df : DataFrame) (x : string) :
  In x (sorted_strings (unique String.eqb (map numero_rm df)))
  <-> exists r, In r df /\ numero_rm r = x.
Proof.
  split.
  - intros H. apply (Permutation_in _ (sorted_strings_perm _)) in H.
    apply (proj1 (in_unique _ _)) in H. apply in_map_iff in H.
    destruct H as (r & E & Hr). exists r. auto.
  - intros (r & Hr & <-).
    apply (Permutation_in _ (Permutation_sym (sorted_strings_perm _))).
    apply (proj2 (in_unique _ _)). now apply in_map.
Qed.

Lemma isin_string_In (values : list string) (x : string) :
  isin String.eqb values x = true <-> In x values.
Proof.
  unfold isin. rewrite existsb_exists. split.
  - intros (y & Hy & E). apply String.eqb_eq in E. now subst.
  - intros H. exists x. split; [ exact H | apply String.eqb_refl ].
Qed.

(** The reference numbers line 110 hands to [int]. *)
Lemma in_numeric_rms (L : Library) (df : DataFrame) (x : string) :
  In x (filter (str_isdigit L)
               (sorted_strings (unique String.eqb (map numero_rm df))))
  <-> exists r, In r df /\ numero_rm r = x /\ str_isdigit L x = true.
Proof.
  rewrite filter_In, in_lista_rms. split.
  - intros [(r & Hr & E) D]. exists r. auto.
  - intros (r & Hr & E & D). split; [ exists r; auto | exact D ].
Qed.

(** A reference number that passes [str.isdigit] and that [int] refuses
    makes the page raise, whatever else the frames hold. *)
Lemma rm_page_int_error (L : Library)
    (multiselect : list string -> list string -> list string)
    (df_pago df_pendente : DataFrame) (r : Invoice) :
  In r (df_pago ++ df_pendente) ->
  str_isdigit L (numero_rm r) = true ->
  int_of_str L (numero_rm r) = None ->
  display_rm_detalhado L multiselect df_pago df_pendente = Raise int_error.
Proof.
  intros Hr D N. unfold display_rm_detalhado.
  rewrite (traverse_int_fails L); [ reflexivity | ].
  exists (numero_rm r). split; [ | exact N ].
  apply in_numeric_rms. exists r. auto.
Qed.

(** X19. The page by RM raises in two cases and no other: with the
    ValueError of [int] (line 110) when some reference number of the two
    frames passes [str.isdigit] and is refused by [int]; and, when [int]
    reads them all and there is one at least, with Streamlit's refusal of
    the default of line 111 (line 112) when [str] of the largest number is
    the reference number of no record. *)
Theorem rm_page_raises_iff (L : Library)
    (multiselect : list string -> list string -> list string)
    (df_pago df_pendente : DataFrame) (e : exn) :
  display_rm_detalhado L multiselect df_pago df_pendente = Raise e
  <-> (e = int_error
       /\ exists r, In r (df_pago ++ df_pendente)
            /\ str_isdigit L (numero_rm r) = true
            /\ int_of_str L (numero_rm r) = None)
      \/ (e = default_error
          /\ exists z zs,
               traverse (int L)
                 (filter (str_isdigit L)
                    (sorted_strings
                       (unique String.eqb
                          (map numero_rm (df_pago ++ df_pendente)))))
               = Ok (z :: zs)
               /\ forall r, In r (df_pago ++ df_pendente) ->
                    numero_rm r <> str_of_int L (max_int z zs)).
Proof.
  unfold display_rm_detalhado.
  set (df := df_pago ++ df_pendente).
  set (lista := sorted_strings (unique String.eqb (map numero_rm df))).
  assert (F : (exists r, In r df /\ str_isdigit L (numero_rm r) = true
                 /\ int_of_str L (numero_rm r) = None) ->
              traverse (int L) (filter (str_isdigit L) lista)
              = Raise int_error).
  { intros (r & Hr & D & N). apply traverse_int_fails.
    exists (numero_rm r). split; [ | exact N ].
    apply in_numeric_rms. exists r. auto. }
  destruct (traverse (int L) (filter (str_isdigit L) lista)) as [zs|e'] eqn:T;
    cbn [bind].
  - unfold st_multiselect. destruct zs as [|z zs].
    + assert (D : forallb (isin String.eqb lista)
                    match lista with r :: _ => [r] | [] => [] end = true).
      { destruct lista as [|r l]; [ reflexivity | ].
        cbn [forallb isin existsb]. now rewrite String.eqb_refl. }
      rewrite D. cbn [bind]. split.
      * destruct (negb (empty _)); discriminate.
      * intros [(_ & H)|(_ & z & zs & H & _)]; [ | discriminate ].
        discriminate (F H).
    + cbn [forallb]. rewrite andb_true_r.
      destruct (isin String.eqb lista (str_of_int L (max_int z zs))) eqn:I;
        cbn [bind].
      * split; [ destruct (negb (empty _)); discriminate | ].
        intros [(_ & H)|(_ & z' & zs' & H & N)].
        -- discriminate (F H).
        -- inversion H; subst z' zs'.
           apply isin_string_In, in_lista_rms in I.
           destruct I as (r & Hr & E). exfalso. exact (N r Hr E).
      * split.
        -- intros H. inversion H. right. split; [ reflexivity | ].
           exists z, zs. split; [ reflexivity | ].
           intros r Hr E.
           assert (K : isin String.eqb lista (str_of_int L (max_int z zs))
                       = true).
           { apply isin_string_In, in_lista_rms. exists r. auto. }
           congruence.
        -- intros [(_ & H)|(-> & _)]; [ | reflexivity ].
           discriminate (F H).
  - destruct (traverse_int_raises _ _ _ T) as (-> & x & Hx & N).
    apply in_numeric_rms in Hx. destruct Hx as (r & Hr & <- & D). split.
    + intros H. inversion H; subst e. left. split; [ reflexivity | ].
      exists r. auto.
    + intros [(-> & _)|(_ & z & zs & H & _)]; [ reflexivity | discriminate ].
Qed.

(** C9. The page by RM raises on an empty paid frame, and on an empty
    pending frame, when a reference number of the other frame passes
    [str.isdigit] and is refused by [int] (line 110): the claim has every
    page return placeholders there. *)
Theorem rm_page_raises_on_an_empty_frame (L : Library)
    (multiselect : list string -> list string -> list string)
    (df : DataFrame) (r : Invoice) :
  In r df ->
  str_isdigit L (numero_rm r) = true ->
  int_of_str L (numero_rm r) = None ->
  display_rm_detalhado L multiselect [] df = Raise int_error
  /\ display_rm_detalhado L multiselect df [] = Raise int_error.
Proof.
  intros Hr D N. split.
  - apply (rm_page_int_error L multiselect [] df r); auto.
  - apply (rm_page_int_error L multiselect df [] r); auto.
    rewrite app_nil_r. exact Hr.
Qed.

Lemma rm_page_raises_on_an_empty_frame_witness :
  In (pending_rm "²") [pending_rm "²"]
  /\ str_isdigit superscript_library (numero_rm (pending_rm "²")) = true
  /\ int_of_str superscript_library (numero_rm (pending_rm "²")) = None
  /\ display_rm_detalhado superscript_library (fun _ default => default)
       [] [pending_rm "²"]
     = Raise int_error
  /\ display_rm_detalhado superscript_library (fun _ default => default)
       [pending_rm "²"] []
     = Raise int_error.
Proof.
  assert (I : In (pending_rm "²") [pending_rm "²"]) by (simpl; auto).
  split; [ exact I | ]. split; [ reflexivity | ]. split; [ reflexivity | ].
  exact (rm_page_raises_on_an_empty_frame superscript_library
           (fun _ default => default) [pending_rm "²"] (pending_rm "²")
           I eq_refl eq_refl).
Defined.

(** On an empty paid frame and a pending invoice of reference number 007,
    line 111 makes 7 the default, which is not among the options of line
    112, and the widget refuses it. *)
Example leading_zeros_default_is_refused :
  display_rm_detalhado leading_zeros_library (fun _ default => default)
    [] [pending_rm "007"]
  = Raise default_error.
Proof. vm_compute. reflexivity. Qed.

(** With reference numbers that [int] reads and [str] writes back, the
    page shows the pending invoice of the default reference number. *)
Example rm_page_on_an_empty_paid_frame :
  exists tabela,
    display_rm_detalhado plain_library (fun _ default => default)
      [] [pending_invoice]
    = Ok (Some (mkRmDetalhado None tabela))
    /\ List.length tabela = 1%nat.
Proof. eexists. vm_compute. split; reflexivity. Qed.

(** ** The composition chart *)




(** ** Stopping *)

(** X21. A render cycle ends at the [st.stop()] of line 168 exactly when
    [load_data] returned [(None, None)], with the reason of the load; a
    cycle that got its frames ends with a page or with an exception. *)
Theorem script_stops_iff_load_fails (L : Library) (W : Widgets)
    (file : option Workbook) (sheet_name : string) (why : load_error) :
  script L W file sheet_name = Ok (Stopped why)
  <-> load_data L file sheet_name = NoFrames why.
Proof.
  unfold script. destruct (load_data L file sheet_name) as [p q|why'].
  - split; [ | discriminate ].
    destruct (date_input W (date_bounds p)) as [picked|e]; cbn [bind];
      [ | discriminate ].
    destruct (sorted_cells _) as [cs|e]; cbn [bind]; [ | discriminate ].
    destruct (radio_page W); unfold fmap;
      match goal with
      | |- bind ?m _ = _ -> _ => destruct m; cbn [bind]; discriminate
      end.
  - split; intros H; inversion H; reflexivity.
Qed.
